(** * Rate-limited UDP frame generator: model and verification

    A shallow embedding of the traffic generator (the [main] package that
    builds an Ethernet/IPv4/UDP frame, sends it at [-pps] packets per second
    and reports throughput), followed by the properties of its
    configuration phase, its pacing arithmetic, its three goroutines and the
    lock-protected counters they share.

    Conventions:
    - Go's [int], [int64] and [time.Duration] are 64-bit two's complement,
      [uint64] is 64-bit unsigned; every operation is written on [Z] with
      its wrap-around spelled out ([GoInt.i64], [GoInt.u64]);
    - [float64] is IEEE-754 binary64, modelled by [spec_float] with
      precision 53 and maximal exponent 1024;
    - a Go panic or [log.Fatal] is an explicit outcome, never an exception;
    - the goroutines are program counters plus locals; one [step] executes
      one statement of one goroutine, chosen by the schedule. *)

From Stdlib Require Import ZArith List String Bool Lia Permutation.
From Stdlib Require Import SpecFloat.
Import ListNotations.

Local Open Scope Z_scope.

(* ------------------------------------------------------------------ *)
(** ** Go machine integers *)

Module GoInt.

(** Reduction of a mathematical integer to [uint64]. *)
Definition u64 (z : Z) : Z := z mod 2 ^ 64.

(** Reduction of a mathematical integer to [int64] (and [int]). *)
Definition i64 (z : Z) : Z := (z + 2 ^ 63) mod 2 ^ 64 - 2 ^ 63.

(** Reduction to [uint16], the representation of [layers.UDPPort]. *)
Definition u16 (z : Z) : Z := z mod 2 ^ 16.

Definition is_i64 (z : Z) : Prop := - 2 ^ 63 <= z < 2 ^ 63.
Definition is_u64 (z : Z) : Prop := 0 <= z < 2 ^ 64.

(** Signed division [a / b]: truncates toward zero and panics with
    "integer divide by zero" when [b = 0] (rendered as [None]). *)
Definition div (a b : Z) : option Z :=
  if b =? 0 then None else Some (i64 (Z.quot a b)).

Definition mul (a b : Z) : Z := i64 (a * b).

(** [time.Time.Sub] saturates instead of wrapping. *)
Definition saturate (z : Z) : Z :=
  if z <? - 2 ^ 63 then - 2 ^ 63
  else if 2 ^ 63 - 1 <? z then 2 ^ 63 - 1 else z.

End GoInt.

(* ------------------------------------------------------------------ *)
(** ** [float64] *)

Module F64.

Definition prec : Z := 53.
Definition emax : Z := 1024.

Definition t : Type := spec_float.

(** Conversion of an integer ([float64(x)]), round to nearest even. *)
Definition of_Z (z : Z) : t := binary_normalize prec emax z 0 false.

Definition mul : t -> t -> t := SFmul prec emax.
Definition div : t -> t -> t := SFdiv prec emax.
Definition add : t -> t -> t := SFadd prec emax.

Definition zero : t := S754_zero false.


End F64.

(* ------------------------------------------------------------------ *)
(** ** [time] *)

Module Time.

(** [time.Duration]: nanoseconds in an [int64]. *)
Definition Duration : Type := Z.

Definition Nanosecond : Duration := 1.
Definition Microsecond : Duration := 1000 * Nanosecond.
Definition Millisecond : Duration := 1000 * Microsecond.
Definition Second : Duration := 1000 * Millisecond.

(** An instant of the monotonic clock, in nanoseconds. *)
Definition Instant : Type := Z.

(** [t.Add(d)]. *)
Definition Add (t : Instant) (d : Duration) : Instant := t + d.

(** [t.After(u)]. *)
Definition After (t u : Instant) : bool := u <? t.

(** [time.Since(start)] evaluated at instant [now]. *)
Definition Since (now start : Instant) : Duration :=
  GoInt.saturate (now - start).

(** [d.Seconds()]:
    [sec := d / Second; nsec := d % Second;
     return float64(sec) + float64(nsec)/1e9]. *)
Definition Seconds (d : Duration) : F64.t :=
  let sec := Z.quot d Second in
  let nsec := Z.rem d Second in
  F64.add (F64.of_Z sec) (F64.div (F64.of_Z nsec) (F64.of_Z 1000000000)).

End Time.

(* ------------------------------------------------------------------ *)
(** ** Command line and platform *)

Definition byte : Type := Z.
Definition HardwareAddr : Type := list byte.
Definition IP : Type := list byte.

(** The command-line flags, with the types [flag] gives them. *)
Record Flags : Type := mkFlags {
  interfaceName : string;
  destMAC : string;
  destIP : string;
  srcIP : string;
  destPort : Z;
  srcPort : Z;
  pps : Z;
  payloadSize : Z;
  duration : Time.Duration;
  reportInterval : Z
}.

(** The defaults declared with the flags. *)
Definition default_flags : Flags :=
  {| interfaceName := "eth0";
     destMAC := "";
     destIP := "255.255.255.255";
     srcIP := "192.168.1.2";
     destPort := 8125;
     srcPort := 12345;
     pps := 1000;
     payloadSize := 1400;
     duration := 0;
     reportInterval := 1 |}.

Record Ethernet : Type := mkEthernet {
  SrcMAC : HardwareAddr;
  DstMAC : HardwareAddr;
  EthernetType : Z
}.

Record IPv4 : Type := mkIPv4 {
  Version : Z;
  TTL : Z;
  Protocol : Z;
  SrcIP : IP;
  DstIP : IP
}.

Record UDP : Type := mkUDP {
  SrcPort : Z;
  DstPort : Z
}.

Definition EthernetTypeIPv4 : Z := 2048.
Definition IPProtocolUDP : Z := 17.

(** What every call of [gopacket.SerializeLayers] in the sender receives:
    the three header layers and the payload. *)
Record FrameTemplate : Type := mkTemplate {
  eth : Ethernet;
  ip : IPv4;
  udp : UDP;
  payload : list byte
}.

(** The capabilities the program takes from pcap, gopacket, [net] and
    [math/rand].  [SerializeLayers] clears the buffer and writes the layers
    with [FixLengths] and [ComputeChecksums]: the length and checksum
    fields are recomputed on every call from the fields set at
    configuration and from the payload, none of which the sender changes,
    so its result is a function of the template. *)
Record Platform : Type := mkPlatform {
  FindAllDevs : option (list string);
  OpenLive : string -> bool;
  InterfaceByName : string -> option HardwareAddr;
  ParseMAC : string -> option HardwareAddr;
  ParseIP : string -> option IP;
  randRead : nat -> byte;
  SetNetworkLayerForChecksum : IPv4 -> bool;
  SerializeLayers : FrameTemplate -> option (list byte)
}.

(** What the configuration phase hands to the goroutines. *)
Record Config : Type := mkConfig {
  tmpl : FrameTemplate;
  c_pps : Z;
  c_duration : Time.Duration;
  c_reportInterval : Z
}.

(** How the sequential prefix of [main] ends. *)
Inductive Startup : Type :=
| Started (c : Config)      (* both [go] statements executed *)
| Fatal (msg : string)      (* [log.Fatal]/[log.Fatalf]: exit status 1 *)
| Panicked (msg : string).  (* run-time panic *)

Section Configuration.

Variable P : Platform.

Local Open Scope string_scope.

(** [payload := make([]byte, n); rand.Read(payload)]. *)
Definition make_payload (n : nat) : list byte := map (randRead P) (seq 0 n).

(** The statements of [main] up to the second [go] statement.  The
    device listing printed before the last fatal of the first branch goes
    to standard output only and is left out. *)
Definition configure (f : Flags) : Startup :=
  if String.eqb (interfaceName f) "" then
    match FindAllDevs P with
    | None => Fatal "Failed to find devices"
    | Some [] => Fatal "No devices found."
    | Some _ => Fatal "Please specify an interface name with -interface"
    end
  else if negb (OpenLive P (interfaceName f)) then
    Fatal "Failed to open device"
  else
    match InterfaceByName P (interfaceName f) with
    | None => Fatal "Failed to get interface"
    | Some srcMAC =>
      match (if String.eqb (destMAC f) ""
             then Some [255; 255; 255; 255; 255; 255]%Z
             else ParseMAC P (destMAC f)) with
      | None => Fatal "Invalid MAC address format"
      | Some dstMAC =>
        match ParseIP P (srcIP f) with
        | None => Fatal "Invalid source IP address"
        | Some srcIPAddr =>
          match ParseIP P (destIP f) with
          | None => Fatal "Invalid destination IP address"
          | Some dstIPAddr =>
            if (payloadSize f <? 0)%Z then
              Panicked "makeslice: len out of range"
            else
              let payload := make_payload (Z.to_nat (payloadSize f)) in
              let eth := {| SrcMAC := srcMAC; DstMAC := dstMAC;
                            EthernetType := EthernetTypeIPv4 |} in
              let ip := {| Version := 4; TTL := 64;
                           Protocol := IPProtocolUDP;
                           SrcIP := srcIPAddr; DstIP := dstIPAddr |} in
              let udp := {| SrcPort := GoInt.u16 (srcPort f);
                            DstPort := GoInt.u16 (destPort f) |} in
              if negb (SetNetworkLayerForChecksum P ip) then
                Fatal "Failed to set network layer for checksum"
              else
                Started {| tmpl := mkTemplate eth ip udp payload;
                           c_pps := pps f;
                           c_duration := duration f;
                           c_reportInterval := reportInterval f |}
          end
        end
      end
    end.

End Configuration.

(* ------------------------------------------------------------------ *)
(** ** Pacing arithmetic *)

(** [sleepDuration := time.Duration(1000000 / pps) * time.Microsecond],
    where [pps] is the value of the flag; [None] is the panic "integer
    divide by zero". *)
Definition sleepDuration (pps : Z) : option Time.Duration :=
  match GoInt.div 1000000 pps with
  | None => None
  | Some q => Some (GoInt.mul q Time.Microsecond)
  end.

(* ------------------------------------------------------------------ *)
(** ** Reporter arithmetic *)

(** [float64(intervalBytes) * 8 / float64(reportInterval) / 1_000_000]. *)
Definition bitrate (intervalBytes reportInterval : Z) : F64.t :=
  F64.div
    (F64.div (F64.mul (F64.of_Z intervalBytes) (F64.of_Z 8))
             (F64.of_Z reportInterval))
    (F64.of_Z 1000000).

(** [float64(currentPackets) / elapsedSec]. *)
Definition avgPacketRate (currentPackets : Z) (elapsedSec : F64.t) : F64.t :=
  F64.div (F64.of_Z currentPackets) elapsedSec.

(** [float64(bytes)/1_000_000]. *)
Definition megabytes (bytes : Z) : F64.t :=
  F64.div (F64.of_Z bytes) (F64.of_Z 1000000).

(** [float64(finalBytes) * 8 / elapsedSec / 1_000_000]. *)
Definition avgBitrate (finalBytes : Z) (elapsedSec : F64.t) : F64.t :=
  F64.div (F64.div (F64.mul (F64.of_Z finalBytes) (F64.of_Z 8)) elapsedSec)
          (F64.of_Z 1000000).

(* ------------------------------------------------------------------ *)
(** ** The running process *)

Inductive Goroutine : Type := G_main | G_reporter | G_sender.

Inductive Status : Type :=
| Running
| Exited                                   (* [main] returned: status 0 *)
| Crashed (g : Goroutine) (msg : string).  (* unrecovered panic: status 2 *)

(** Lines of standard output, with the values handed to [Printf]. *)
Inductive Line : Type :=
| StatusLine (bitrate : F64.t) (intervalPackets : Z)
             (avgPacketRate : F64.t) (totalMB : F64.t)
| ShuttingDown
| SummaryLine (finalPackets : Z) (totalMB avgBitrate elapsedSec : F64.t).

(** Lines written by [log.Printf]. *)
Inductive Warning : Type :=
| FailedToSerialize    (* "Failed to serialize packet: %v" *)
| FailedToSend.        (* "Failed to send packet: %v" *)

(** A [time.Ticker]: the next firing instant, the period, the one-slot
    channel [C] and whether [Stop] was called. *)
Record Ticker : Type := mkTicker {
  next_tick : Time.Instant;
  period : Time.Duration;
  tickC : bool;
  stopped : bool
}.

(** Everything more than one goroutine (or the runtime) can touch. *)
Record Shared : Type := mkShared {
  status : Status;
  now : Time.Instant;
  startTime : Time.Instant;
  sigChan : bool;               (* a signal waits in the one-slot channel *)
  stopChan : bool;              (* [true] once closed *)
  mu : option Goroutine;        (* the holder of the mutex *)
  packetsSent : Z;
  bytesSent : Z;
  ticker : option Ticker;
  wire : list (list byte);      (* frames accepted by [WritePacketData] *)
  stdout : list Line;
  stderr : list Warning
}.

Inductive SenderPC : Type :=
| S_start       (* line 182: sleepDuration, endTime *)
| S_select      (* line 190: select on stopChan with default *)
| S_check       (* line 195: duration check *)
| S_serialize   (* line 201 *)
| S_write       (* line 209 *)
| S_lock        (* line 216 *)
| S_inc         (* line 217 *)
| S_add         (* line 218 *)
| S_unlock      (* line 219 *)
| S_sleep       (* line 222: call *)
| S_sleeping    (* line 222: waiting *)
| S_returned.

Record SenderLocals : Type := mkSender {
  s_pc : SenderPC;
  s_sleepDuration : Time.Duration;
  endTime : option Time.Instant;   (* [None] is the zero [time.Time] *)
  packetData : list byte;
  s_wake : Time.Instant
}.

Inductive ReporterPC : Type :=
| R_start       (* line 148: NewTicker *)
| R_select      (* line 155 *)
| R_lock        (* line 157 *)
| R_readPackets (* line 158 *)
| R_readBytes   (* line 159 *)
| R_diff        (* lines 160-163 *)
| R_unlock      (* line 164 *)
| R_print       (* lines 166-171 *)
| R_returned.

Record ReporterLocals : Type := mkReporter {
  r_pc : ReporterPC;
  lastPackets : Z;
  lastBytes : Z;
  currentPackets : Z;
  currentBytes : Z;
  intervalPackets : Z;
  intervalBytes : Z
}.

Inductive MainPC : Type :=
| M_wait        (* line 228 *)
| M_println     (* line 229 *)
| M_close       (* line 230 *)
| M_sleep       (* line 233: call *)
| M_sleeping    (* line 233: waiting *)
| M_elapsed     (* line 234 *)
| M_lock        (* line 235 *)
| M_readPackets (* line 236 *)
| M_readBytes   (* line 237 *)
| M_unlock      (* line 238 *)
| M_print       (* lines 240-242 *)
| M_return
| M_done.

Record MainLocals : Type := mkMain {
  m_pc : MainPC;
  m_wake : Time.Instant;
  elapsedSec : F64.t;
  finalPackets : Z;
  finalBytes : Z
}.

Record State : Type := mkState {
  sh : Shared;
  sender : SenderLocals;
  reporter : ReporterLocals;
  mainl : MainLocals
}.

(** *** Field updates *)

Definition set_status (v : Status) (x : Shared) : Shared :=
  mkShared v (now x) (startTime x) (sigChan x) (stopChan x) (mu x)
           (packetsSent x) (bytesSent x) (ticker x) (wire x) (stdout x)
           (stderr x).
Definition set_now (v : Time.Instant) (x : Shared) : Shared :=
  mkShared (status x) v (startTime x) (sigChan x) (stopChan x) (mu x)
           (packetsSent x) (bytesSent x) (ticker x) (wire x) (stdout x)
           (stderr x).
Definition set_sigChan (v : bool) (x : Shared) : Shared :=
  mkShared (status x) (now x) (startTime x) v (stopChan x) (mu x)
           (packetsSent x) (bytesSent x) (ticker x) (wire x) (stdout x)
           (stderr x).
Definition set_stopChan (v : bool) (x : Shared) : Shared :=
  mkShared (status x) (now x) (startTime x) (sigChan x) v (mu x)
           (packetsSent x) (bytesSent x) (ticker x) (wire x) (stdout x)
           (stderr x).
Definition set_mu (v : option Goroutine) (x : Shared) : Shared :=
  mkShared (status x) (now x) (startTime x) (sigChan x) (stopChan x) v
           (packetsSent x) (bytesSent x) (ticker x) (wire x) (stdout x)
           (stderr x).
Definition set_packetsSent (v : Z) (x : Shared) : Shared :=
  mkShared (status x) (now x) (startTime x) (sigChan x) (stopChan x) (mu x)
           v (bytesSent x) (ticker x) (wire x) (stdout x) (stderr x).
Definition set_bytesSent (v : Z) (x : Shared) : Shared :=
  mkShared (status x) (now x) (startTime x) (sigChan x) (stopChan x) (mu x)
           (packetsSent x) v (ticker x) (wire x) (stdout x) (stderr x).
Definition set_ticker (v : option Ticker) (x : Shared) : Shared :=
  mkShared (status x) (now x) (startTime x) (sigChan x) (stopChan x) (mu x)
           (packetsSent x) (bytesSent x) v (wire x) (stdout x) (stderr x).
Definition set_wire (v : list (list byte)) (x : Shared) : Shared :=
  mkShared (status x) (now x) (startTime x) (sigChan x) (stopChan x) (mu x)
           (packetsSent x) (bytesSent x) (ticker x) v (stdout x) (stderr x).
Definition set_stdout (v : list Line) (x : Shared) : Shared :=
  mkShared (status x) (now x) (startTime x) (sigChan x) (stopChan x) (mu x)
           (packetsSent x) (bytesSent x) (ticker x) (wire x) v (stderr x).
Definition set_stderr (v : list Warning) (x : Shared) : Shared :=
  mkShared (status x) (now x) (startTime x) (sigChan x) (stopChan x) (mu x)
           (packetsSent x) (bytesSent x) (ticker x) (wire x) (stdout x) v.

Definition set_s_pc (v : SenderPC) (l : SenderLocals) : SenderLocals :=
  mkSender v (s_sleepDuration l) (endTime l) (packetData l) (s_wake l).
Definition set_packetData (v : list byte) (l : SenderLocals) : SenderLocals :=
  mkSender (s_pc l) (s_sleepDuration l) (endTime l) v (s_wake l).
Definition set_s_wake (v : Time.Instant) (l : SenderLocals) : SenderLocals :=
  mkSender (s_pc l) (s_sleepDuration l) (endTime l) (packetData l) v.

Definition set_r_pc (v : ReporterPC) (l : ReporterLocals) : ReporterLocals :=
  mkReporter v (lastPackets l) (lastBytes l) (currentPackets l)
             (currentBytes l) (intervalPackets l) (intervalBytes l).
Definition set_currentPackets (v : Z) (l : ReporterLocals) : ReporterLocals :=
  mkReporter (r_pc l) (lastPackets l) (lastBytes l) v
             (currentBytes l) (intervalPackets l) (intervalBytes l).
Definition set_currentBytes (v : Z) (l : ReporterLocals) : ReporterLocals :=
  mkReporter (r_pc l) (lastPackets l) (lastBytes l) (currentPackets l)
             v (intervalPackets l) (intervalBytes l).

Definition set_m_pc (v : MainPC) (l : MainLocals) : MainLocals :=
  mkMain v (m_wake l) (elapsedSec l) (finalPackets l) (finalBytes l).
Definition set_m_wake (v : Time.Instant) (l : MainLocals) : MainLocals :=
  mkMain (m_pc l) v (elapsedSec l) (finalPackets l) (finalBytes l).
Definition set_elapsedSec (v : F64.t) (l : MainLocals) : MainLocals :=
  mkMain (m_pc l) (m_wake l) v (finalPackets l) (finalBytes l).
Definition set_finalPackets (v : Z) (l : MainLocals) : MainLocals :=
  mkMain (m_pc l) (m_wake l) (elapsedSec l) v (finalBytes l).
Definition set_finalBytes (v : Z) (l : MainLocals) : MainLocals :=
  mkMain (m_pc l) (m_wake l) (elapsedSec l) (finalPackets l) v.

(** An unrecovered panic in goroutine [g] ends the process. *)
Definition crash (g : Goroutine) (msg : string) (x : Shared) : Shared :=
  set_status (Crashed g msg) x.

(** [close(stopChan)]: closing a closed channel panics. *)
Definition close_stopChan (g : Goroutine) (x : Shared) : Shared :=
  if stopChan x then crash g "close of closed channel" x
  else set_stopChan true x.

(** [mu.Lock()]: blocks ([None]) while the mutex is held. *)
Definition lock (g : Goroutine) (x : Shared) : option Shared :=
  match mu x with
  | None => Some (set_mu (Some g) x)
  | Some _ => None
  end.

(** [mu.Unlock()]: unlocking a mutex that is not locked is a fatal error;
    the mutex does not record which goroutine locked it. *)
Definition unlock (g : Goroutine) (x : Shared) : Shared :=
  match mu x with
  | Some _ => set_mu None x
  | None => crash g "sync: unlock of unlocked mutex" x
  end.

(* ------------------------------------------------------------------ *)
(** ** The goroutines, one statement per step *)

Section Runtime.

Variable P : Platform.
Variable c : Config.

(** The sender goroutine (lines 180-225).  [write_ok] is what
    [handle.WritePacketData] answers when the statement executed is that
    call.  [None] means the goroutine cannot move. *)
Definition sender_step (write_ok : bool) (x : Shared) (l : SenderLocals)
  : option (Shared * SenderLocals) :=
  match s_pc l with
  | S_start =>
    match sleepDuration (c_pps c) with
    | None => Some (crash G_sender "integer divide by zero" x, l)
    | Some d =>
      Some (x, mkSender S_select d
                 (if 0 <? c_duration c
                  then Some (Time.Add (startTime x) (c_duration c))
                  else None)
                 (packetData l) (s_wake l))
    end
  | S_select =>
    if stopChan x then Some (x, set_s_pc S_returned l)
    else Some (x, set_s_pc S_check l)
  | S_check =>
    if (0 <? c_duration c)
       && match endTime l with
          | Some e => Time.After (now x) e
          | None => true
          end
    then Some (close_stopChan G_sender x, set_s_pc S_returned l)
    else Some (x, set_s_pc S_serialize l)
  | S_serialize =>
    match SerializeLayers P (tmpl c) with
    | None =>
      Some (set_stderr (stderr x ++ [FailedToSerialize]) x,
            set_s_pc S_select l)
    | Some data => Some (x, set_s_pc S_write (set_packetData data l))
    end
  | S_write =>
    if write_ok
    then Some (set_wire (wire x ++ [packetData l]) x, set_s_pc S_lock l)
    else Some (set_stderr (stderr x ++ [FailedToSend]) x,
               set_s_pc S_select l)
  | S_lock =>
    match lock G_sender x with
    | Some x' => Some (x', set_s_pc S_inc l)
    | None => None
    end
  | S_inc =>
    Some (set_packetsSent (GoInt.u64 (packetsSent x + 1)) x,
          set_s_pc S_add l)
  | S_add =>
    Some (set_bytesSent
            (GoInt.u64 (bytesSent x
                        + GoInt.u64 (Z.of_nat (List.length (packetData l))))) x,
          set_s_pc S_unlock l)
  | S_unlock => Some (unlock G_sender x, set_s_pc S_sleep l)
  | S_sleep =>
    Some (x, set_s_pc S_sleeping
               (set_s_wake (Time.Add (now x) (s_sleepDuration l)) l))
  | S_sleeping =>
    if s_wake l <=? now x then Some (x, set_s_pc S_select l) else None
  | S_returned => None
  end.

(** The reporter goroutine (lines 147-177).  When both the ticker channel
    and [stopChan] are ready, [select] picks either; [pick_stop] is that
    choice. *)
Definition reporter_step (pick_stop : bool) (x : Shared) (l : ReporterLocals)
  : option (Shared * ReporterLocals) :=
  match r_pc l with
  | R_start =>
    let d := GoInt.mul (c_reportInterval c) Time.Second in
    if d <=? 0
    then Some (crash G_reporter "non-positive interval for NewTicker" x, l)
    else Some (set_ticker
                 (Some (mkTicker (Time.Add (now x) d) d false false)) x,
               set_r_pc R_select l)
  | R_select =>
    let tick := match ticker x with
                | Some t => tickC t
                | None => false
                end in
    let take_tick :=
      match ticker x with
      | Some t =>
        Some (set_ticker
                (Some (mkTicker (next_tick t) (period t) false (stopped t)))
                x,
              set_r_pc R_lock l)
      | None => None
      end in
    let take_stop :=
      match ticker x with
      | Some t =>
        Some (set_ticker
                (Some (mkTicker (next_tick t) (period t) (tickC t) true)) x,
              set_r_pc R_returned l)
      | None => None
      end in
    match tick, stopChan x with
    | true, true => if pick_stop then take_stop else take_tick
    | true, false => take_tick
    | false, true => take_stop
    | false, false => None
    end
  | R_lock =>
    match lock G_reporter x with
    | Some x' => Some (x', set_r_pc R_readPackets l)
    | None => None
    end
  | R_readPackets =>
    Some (x, set_r_pc R_readBytes (set_currentPackets (packetsSent x) l))
  | R_readBytes =>
    Some (x, set_r_pc R_diff (set_currentBytes (bytesSent x) l))
  | R_diff =>
    Some (x, mkReporter R_unlock
               (currentPackets l) (currentBytes l)
               (currentPackets l) (currentBytes l)
               (GoInt.u64 (currentPackets l - lastPackets l))
               (GoInt.u64 (currentBytes l - lastBytes l)))
  | R_unlock => Some (unlock G_reporter x, set_r_pc R_print l)
  | R_print =>
    let elapsedSec := Time.Seconds (Time.Since (now x) (startTime x)) in
    Some (set_stdout
            (stdout x ++
             [StatusLine (bitrate (intervalBytes l) (c_reportInterval c))
                         (intervalPackets l)
                         (avgPacketRate (currentPackets l) elapsedSec)
                         (megabytes (currentBytes l))]) x,
          set_r_pc R_select l)
  | R_returned => None
  end.

(** The rest of [main] (lines 227-243). *)
Definition main_step (x : Shared) (l : MainLocals)
  : option (Shared * MainLocals) :=
  match m_pc l with
  | M_wait =>
    if sigChan x then Some (set_sigChan false x, set_m_pc M_println l)
    else None
  | M_println =>
    Some (set_stdout (stdout x ++ [ShuttingDown]) x, set_m_pc M_close l)
  | M_close => Some (close_stopChan G_main x, set_m_pc M_sleep l)
  | M_sleep =>
    Some (x, set_m_pc M_sleeping
               (set_m_wake (Time.Add (now x) (200 * Time.Millisecond)) l))
  | M_sleeping =>
    if m_wake l <=? now x then Some (x, set_m_pc M_elapsed l) else None
  | M_elapsed =>
    Some (x, set_m_pc M_lock
               (set_elapsedSec
                  (Time.Seconds (Time.Since (now x) (startTime x))) l))
  | M_lock =>
    match lock G_main x with
    | Some x' => Some (x', set_m_pc M_readPackets l)
    | None => None
    end
  | M_readPackets =>
    Some (x, set_m_pc M_readBytes (set_finalPackets (packetsSent x) l))
  | M_readBytes =>
    Some (x, set_m_pc M_unlock (set_finalBytes (bytesSent x) l))
  | M_unlock => Some (unlock G_main x, set_m_pc M_print l)
  | M_print =>
    Some (set_stdout
            (stdout x ++
             [SummaryLine (finalPackets l) (megabytes (finalBytes l))
                          (avgBitrate (finalBytes l) (elapsedSec l))
                          (elapsedSec l)]) x,
          set_m_pc M_return l)
  | M_return => Some (set_status Exited x, set_m_pc M_done l)
  | M_done => None
  end.

(** The runtime's side of the ticker: once its instant is reached a tick
    is put in the one-slot channel (and lost if the slot is taken). *)
Definition ticker_fires (x : Shared) : option Shared :=
  match ticker x with
  | Some t =>
    if negb (stopped t) && (next_tick t <=? now x)
    then Some (set_ticker
                 (Some (mkTicker (Time.Add (next_tick t) (period t))
                                 (period t) true (stopped t))) x)
    else None
  | None => None
  end.

(** What can happen next. *)
Inductive Action : Type :=
| RunSender (write_ok : bool)
| RunReporter (pick_stop : bool)
| RunMain
| Interrupt            (* [os.Interrupt] is delivered to [sigChan] *)
| Elapse (dt : N)      (* the clock advances by [dt] nanoseconds *)
| TickerFires.

Definition step (a : Action) (s : State) : option State :=
  match status (sh s) with
  | Running =>
    match a with
    | RunSender w =>
      match sender_step w (sh s) (sender s) with
      | Some (x, l) => Some (mkState x l (reporter s) (mainl s))
      | None => None
      end
    | RunReporter b =>
      match reporter_step b (sh s) (reporter s) with
      | Some (x, l) => Some (mkState x (sender s) l (mainl s))
      | None => None
      end
    | RunMain =>
      match main_step (sh s) (mainl s) with
      | Some (x, l) => Some (mkState x (sender s) (reporter s) l)
      | None => None
      end
    | Interrupt =>
      Some (mkState (set_sigChan true (sh s))
                    (sender s) (reporter s) (mainl s))
    | Elapse dt =>
      Some (mkState (set_now (now (sh s) + Z.of_N dt) (sh s))
                    (sender s) (reporter s) (mainl s))
    | TickerFires =>
      match ticker_fires (sh s) with
      | Some x => Some (mkState x (sender s) (reporter s) (mainl s))
      | None => None
      end
    end
  | _ => None
  end.

(** Execution of a schedule; [None] when one of its actions cannot happen. *)
Fixpoint exec (acts : list Action) (s : State) : option State :=
  match acts with
  | [] => Some s
  | a :: rest =>
    match step a s with
    | Some s' => exec rest s'
    | None => None
    end
  end.

(** The state right after the two [go] statements, at instant [t0]
    ([startTime := time.Now()]). *)
Definition init (t0 : Time.Instant) : State :=
  mkState
    (mkShared Running t0 t0 false false None 0 0 None [] [] [])
    (mkSender S_start 0 None [] 0)
    (mkReporter R_start 0 0 0 0 0 0)
    (mkMain M_wait 0 F64.zero 0 0).

Definition reachable (t0 : Time.Instant) (s : State) : Prop :=
  exists acts, exec acts (init t0) = Some s.

End Runtime.

(** The whole program: configuration, then the goroutines under a
    schedule. *)
Inductive Outcome : Type :=
| NotStarted (r : Startup)
| Ran (s : option State).

Definition run (P : Platform) (f : Flags) (t0 : Time.Instant)
           (acts : list Action) : Outcome :=
  match configure P f with
  | Started c => Ran (exec P c acts (init t0))
  | r => NotStarted r
  end.

(* ------------------------------------------------------------------ *)
(** ** What the counters account for *)

(** Total byte length of a sequence of frames. *)
Fixpoint total (w : list (list byte)) : Z :=
  match w with
  | [] => 0
  | f :: rest => Z.of_nat (List.length f) + total rest
  end.

(** The pair a reader sees once exactly the frames of [p] were added. *)
Definition snapshot_of (p : list (list byte)) : Z * Z :=
  (GoInt.u64 (Z.of_nat (List.length p)), GoInt.u64 (total p)).

Definition prefix_of {A : Type} (p w : list A) : Prop :=
  exists rest, w = p ++ rest.

(** The sender has written a frame whose bytes are not added yet. *)
Definition pending (pc : SenderPC) : bool :=
  match pc with
  | S_lock | S_inc | S_add => true
  | _ => false
  end.

(** The frames whose add is complete: all the frames on the wire, but the
    last one while its add is pending. *)
Definition added (s : State) : list (list byte) :=
  if pending (s_pc (sender s)) then removelast (wire (sh s))
  else wire (sh s).

(** The frames counted in [packetsSent], which runs one frame ahead of
    [bytesSent] between lines 217 and 218. *)
Definition counted (s : State) : list (list byte) :=
  match s_pc (sender s) with
  | S_add => wire (sh s)
  | _ => added s
  end.

(** Program counters inside the three critical sections. *)
Definition s_in_cs (pc : SenderPC) : bool :=
  match pc with
  | S_inc | S_add | S_unlock => true
  | _ => false
  end.

Definition r_in_cs (pc : ReporterPC) : bool :=
  match pc with
  | R_readPackets | R_readBytes | R_diff | R_unlock => true
  | _ => false
  end.

Definition m_in_cs (pc : MainPC) : bool :=
  match pc with
  | M_readPackets | M_readBytes | M_unlock => true
  | _ => false
  end.

(** The sender holds the frame it serialized. *)
Definition holds_frame (pc : SenderPC) : bool :=
  match pc with
  | S_write | S_lock | S_inc | S_add => true
  | _ => false
  end.

(** [main] is past [close(stopChan)]. *)
Definition m_closed (pc : MainPC) : bool :=
  match pc with
  | M_wait | M_println | M_close => false
  | _ => true
  end.

(** The length every frame of the run has: that of the serialized
    template (0 if the template does not serialize, in which case nothing
    is ever sent). *)
Definition frameLen (P : Platform) (c : Config) : Z :=
  match SerializeLayers P (tmpl c) with
  | Some f => Z.of_nat (List.length f)
  | None => 0
  end.

(** The invariant of the run: mutual exclusion, the counters against the
    wire, and the pairs held by the two readers. *)
Record Inv (P : Platform) (c : Config) (s : State) : Prop := mkInv {
  inv_u64_packets : GoInt.is_u64 (packetsSent (sh s));
  inv_u64_bytes : GoInt.is_u64 (bytesSent (sh s));
  inv_cs_sender :
    s_in_cs (s_pc (sender s)) = true -> mu (sh s) = Some G_sender;
  inv_cs_reporter :
    r_in_cs (r_pc (reporter s)) = true -> mu (sh s) = Some G_reporter;
  inv_cs_main :
    m_in_cs (m_pc (mainl s)) = true -> mu (sh s) = Some G_main;
  inv_frame :
    holds_frame (s_pc (sender s)) = true ->
    SerializeLayers P (tmpl c) = Some (packetData (sender s));
  inv_wire :
    Forall (fun f => SerializeLayers P (tmpl c) = Some f) (wire (sh s));
  inv_pending :
    pending (s_pc (sender s)) = true ->
    wire (sh s) = added s ++ [packetData (sender s)];
  inv_packets :
    packetsSent (sh s) = GoInt.u64 (Z.of_nat (List.length (counted s)));
  inv_bytes :
    bytesSent (sh s) = GoInt.u64 (total (added s));
  inv_reporter_half :
    r_pc (reporter s) = R_readBytes ->
    currentPackets (reporter s) = packetsSent (sh s);
  inv_reporter_pair :
    r_pc (reporter s) <> R_readBytes ->
    exists p, prefix_of p (added s) /\
      (currentPackets (reporter s), currentBytes (reporter s))
      = snapshot_of p;
  inv_main_half :
    m_pc (mainl s) = M_readBytes ->
    finalPackets (mainl s) = packetsSent (sh s);
  inv_main_pair :
    m_pc (mainl s) <> M_readBytes ->
    exists p, prefix_of p (added s) /\
      (finalPackets (mainl s), finalBytes (mainl s)) = snapshot_of p;
  inv_reporter_fresh :
    r_pc (reporter s) = R_diff ->
    (currentPackets (reporter s), currentBytes (reporter s))
    = snapshot_of (added s);
  inv_reporter_last :
    exists p, prefix_of p (added s) /\
      (lastPackets (reporter s), lastBytes (reporter s)) = snapshot_of p
}.

(* ------------------------------------------------------------------ *)
(** ** A test bench *)

(** A host with one interface, [eth0]; every frame is 42 header bytes
    followed by the payload. *)
Definition bench : Platform :=
  {| FindAllDevs := Some ["eth0"%string];
     OpenLive := fun n => String.eqb n "eth0";
     InterfaceByName :=
       fun n => if String.eqb n "eth0" then Some [2; 0; 0; 0; 0; 1]
                else None;
     ParseMAC := fun _ => None;
     ParseIP :=
       fun a => if String.eqb a "255.255.255.255"
                then Some [255; 255; 255; 255]
                else if String.eqb a "192.168.1.2"
                     then Some [192; 168; 1; 2]
                     else None;
     randRead := fun i => Z.of_nat i mod 256;
     SetNetworkLayerForChecksum := fun _ => true;
     SerializeLayers := fun t => Some (repeat 0 42 ++ payload t) |}.

Definition with_pps (v : Z) (f : Flags) : Flags :=
  mkFlags (interfaceName f) (destMAC f) (destIP f) (srcIP f) (destPort f)
          (srcPort f) v (payloadSize f) (duration f) (reportInterval f).

Definition with_payloadSize (v : Z) (f : Flags) : Flags :=
  mkFlags (interfaceName f) (destMAC f) (destIP f) (srcIP f) (destPort f)
          (srcPort f) (pps f) v (duration f) (reportInterval f).

(** The configuration the bench derives from the default flags with a
    4-byte payload. *)
Definition bench_config : Config :=
  match configure bench (with_payloadSize 4 default_flags) with
  | Started c => c
  | _ => mkConfig (mkTemplate (mkEthernet [] [] 0) (mkIPv4 0 0 0 [] [])
                              (mkUDP 0 0) []) 0 0 0
  end.

Definition with_c_pps (v : Z) (c : Config) : Config :=
  mkConfig (tmpl c) v (c_duration c) (c_reportInterval c).

Definition with_c_duration (v : Time.Duration) (c : Config) : Config :=
  mkConfig (tmpl c) (c_pps c) v (c_reportInterval c).

(** The bench configuration with a run window of one second. *)
Definition timed_config : Config := with_c_duration Time.Second bench_config.

(** A schedule in which the run window elapses with no interrupt: the
    sender starts, more than a second passes, the sender reaches its
    duration check, closes [stopChan] and returns. *)
Definition window_elapses : list Action :=
  [RunSender true; Elapse 1000000001; RunSender true; RunSender true].

(** An interrupt followed by the three statements of [main] up to and
    including [close(stopChan)]. *)
Definition interrupt_shutdown : list Action :=
  [Interrupt; RunMain; RunMain; RunMain].

Definition is_interrupt (a : Action) : bool :=
  match a with
  | Interrupt => true
  | _ => false
  end.

Definition is_summary (l : Line) : bool :=
  match l with
  | SummaryLine _ _ _ _ => true
  | _ => false
  end.

(** The bench configuration at two million packets per second, for which
    the inter-send delay is zero. *)
Definition fast_config : Config := with_c_pps 2000000 bench_config.

(** One full iteration of the sender with a successful transmission:
    select, duration check, serialize, write, lock, the two additions,
    unlock, sleep (call and return). *)
Definition one_send : list Action := repeat (RunSender true) 10.

(** The first five statements of an iteration: up to and including
    [mu.Lock()]. *)
Definition up_to_lock : list Action := repeat (RunSender true) 5.

(** [n] successful sends in a row. *)
Definition sends (n : nat) : list Action := List.concat (repeat one_send n).

(** The sender starts, sends [2^64 - 1] frames and takes the lock for the
    next one. *)
Definition wrap_schedule : list Action :=
  [RunSender true] ++ sends (Z.to_nat (2 ^ 64 - 1)) ++ up_to_lock.

(** The sender is at the head of its loop and nothing prevents a send. *)
Definition ready (s : State) : Prop :=
  status (sh s) = Running
  /\ s_pc (sender s) = S_select
  /\ stopChan (sh s) = false
  /\ mu (sh s) = None
  /\ s_sleepDuration (sender s) = 0.

(** The duration check of line 195 does not fire in state [s]. *)
Definition window_open (c : Config) (s : State) : Prop :=
  (0 <? c_duration c)
  && match endTime (sender s) with
     | Some e => Time.After (now (sh s)) e
     | None => true
     end = false.

(** The interval bitrate in the words of the design: interval bytes times
    8, divided by the interval length in seconds (bits per second). *)
Definition interval_bits_per_second (intervalBytes seconds : Z) : F64.t :=
  F64.div (F64.mul (F64.of_Z intervalBytes) (F64.of_Z 8)) (F64.of_Z seconds).

(** One frame is sent and added, then the reporter starts, its ticker
    fires after a second and it reads the two counters. *)
Definition snapshot_schedule : list Action :=
  repeat (RunSender true) 9
  ++ [RunReporter false; Elapse 1000000000; TickerFires]
  ++ repeat (RunReporter false) 4.

(** The sender starts; an interrupt arrives and [main] closes [stopChan];
    the sender sees it at its next [select] and returns. *)
Definition interrupted_run : list Action :=
  [RunSender true] ++ interrupt_shutdown ++ [RunSender true].

(** The bench at 1000 packets per second once the sender has computed its
    delay: it is at the head of its loop. *)
Definition sender_at_loop_head : State :=
  mkState
    (mkShared Running 0 0 false false None 0 0 None [] [] [])
    (mkSender S_select (1000 * Time.Microsecond) None [] 0)
    (mkReporter R_start 0 0 0 0 0 0)
    (mkMain M_wait 0 F64.zero 0 0).

(** The bench with a serializer that always fails. *)
Definition mute_bench : Platform :=
  mkPlatform (FindAllDevs bench) (OpenLive bench) (InterfaceByName bench)
             (ParseMAC bench) (ParseIP bench) (randRead bench)
             (SetNetworkLayerForChecksum bench) (fun _ => None).

(** A tick of the reporter during which nothing was sent: the reporter
    starts, a second passes, the ticker fires and the reporter runs its
    seven statements. *)
Definition idle_tick : list Action :=
  [RunReporter false; Elapse 1000000000; TickerFires]
  ++ repeat (RunReporter false) 7.

(* ------------------------------------------------------------------ *)
(** ** Proof automation *)

(** Case analysis on one step: one goal per statement that can execute,
    with the resulting state spelled out. *)
Ltac break_match_hyp H :=
  repeat match type of H with
         | context [match ?t with _ => _ end] =>
           lazymatch t with
           | context [match _ with _ => _ end] => fail
           | _ =>
             let E := fresh "E" in
             destruct t eqn:E; cbn iota beta in H; try discriminate H
           end
         end.

Ltac step_inv H :=
  unfold step in H;
  match type of H with
  | context [status ?x] =>
    let E := fresh "Erun" in destruct (status x) eqn:E; try discriminate H
  end;
  try match type of H with
      | context [match ?a with RunSender _ => _ | _ => _ end] => destruct a
      end;
  unfold sender_step, reporter_step, main_step, ticker_fires, lock,
    unlock, close_stopChan in H;
  break_match_hyp H; inversion H; subst; clear H; simpl in *.

(** Rewriting with the known program counters, and forward reasoning on
    the implications of the invariant. *)
Ltac use_pcs :=
  repeat match goal with
         | E : s_pc _ = _ |- _ => rewrite E in *
         | E : r_pc _ = _ |- _ => rewrite E in *
         | E : m_pc _ = _ |- _ => rewrite E in *
         | E : SerializeLayers _ _ = _ |- _ => rewrite E in *
         | E : mu _ = _ |- _ => rewrite E in *
         end.

Ltac modus :=
  repeat match goal with
         | H : ?A, H' : ?A -> _ |- _ => specialize (H' H)
         end.

Ltac fwd :=
  repeat match goal with
         | H : ?x = ?x -> _ |- _ => specialize (H eq_refl)
         | H : false = true -> _ |- _ => clear H
         | H : ?a <> ?a -> _ |- _ => clear H
         | H : ?a <> ?b -> _ |- _ =>
           let N := fresh in
           assert (N : a <> b) by discriminate; specialize (H N); clear N
         | H : ?a = ?b -> _ |- _ =>
           assert (a <> b) by discriminate; clear H
         end.

(** A run without a window, interrupted: both workers start, the
    interrupt arrives, [main] closes [stopChan], sleeps 200 ms and runs to
    its end. *)
Definition clean_interrupt : list Action :=
  [RunSender true; RunReporter false]
  ++ interrupt_shutdown
  ++ [RunMain; Elapse 200000000]
  ++ repeat RunMain 8.

(* ------------------------------------------------------------------ *)
(** ** Further observations of a run *)

(** The statement of goroutine [g] as an action of the schedule (with a
    successful write and the tick preferred, where that matters). *)
Definition run_of (g : Goroutine) : Action :=
  match g with
  | G_sender => RunSender true
  | G_reporter => RunReporter false
  | G_main => RunMain
  end.

(** The holder of the mutex is inside its critical section. *)
Definition holder_in_cs (s : State) : Prop :=
  match mu (sh s) with
  | Some G_sender => s_in_cs (s_pc (sender s)) = true
  | Some G_reporter => r_in_cs (r_pc (reporter s)) = true
  | Some G_main => m_in_cs (m_pc (mainl s)) = true
  | None => True
  end.

(** The sender is past its [select] and before the end of its write: it
    may still put one frame on the wire without looking at [stopChan]. *)
Definition in_flight (pc : SenderPC) : nat :=
  match pc with
  | S_check | S_serialize | S_write => 1%nat
  | _ => 0%nat
  end.

(** The instants at which frames are accepted by the device along a
    schedule: the clock reading of every step that extends the wire. *)
Definition sent_now (s s' : State) : list Time.Instant :=
  if (List.length (wire (sh s)) <? List.length (wire (sh s')))%nat
  then [now (sh s)] else [].

Fixpoint send_times (P : Platform) (c : Config) (acts : list Action)
         (s : State) : list Time.Instant :=
  match acts with
  | [] => []
  | a :: rest =>
    match step P c a s with
    | Some s' => sent_now s s' ++ send_times P c rest s'
    | None => []
    end
  end.

(** Consecutive instants are at least [d] apart. *)
Fixpoint paced (d : Z) (l : list Time.Instant) : Prop :=
  match l with
  | a :: (b :: _) as rest => a + d <= b /\ paced d rest
  | _ => True
  end.

(** What the pacing argument knows about the last transmission, at
    instant [t], in each place of the sender's loop. *)
Definition paced_since (d : Z) (t : Time.Instant) (s : State) : Prop :=
  match s_pc (sender s) with
  | S_start => False
  | S_select | S_check | S_serialize | S_write => t + d <= now (sh s)
  | S_lock | S_inc | S_add | S_unlock | S_sleep => t <= now (sh s)
  | S_sleeping => t + d <= s_wake (sender s) /\ t <= now (sh s)
  | S_returned => True
  end.

Definition is_shutting_down (l : Line) : bool :=
  match l with
  | ShuttingDown => true
  | _ => false
  end.

Definition is_status_line (l : Line) : bool :=
  match l with
  | StatusLine _ _ _ _ => true
  | _ => false
  end.

Definition is_ticker_fires (a : Action) : bool :=
  match a with
  | TickerFires => true
  | _ => false
  end.

(** [main] has printed its summary. *)
Definition m_summarized (pc : MainPC) : bool :=
  match pc with
  | M_return | M_done => true
  | _ => false
  end.

(** [main] has printed "Shutting down...". *)
Definition m_announced (pc : MainPC) : bool :=
  match pc with
  | M_wait | M_println => false
  | _ => true
  end.

(** The reporter is handling a tick it took from the ticker. *)
Definition r_in_tick (pc : ReporterPC) : nat :=
  match pc with
  | R_lock | R_readPackets | R_readBytes | R_diff | R_unlock | R_print =>
    1%nat
  | _ => 0%nat
  end.

(** A tick waits in the ticker's channel. *)
Definition tick_waiting (x : Shared) : nat :=
  match ticker x with
  | Some t => if tickC t then 1%nat else 0%nat
  | None => 0%nat
  end.

Definition with_reportInterval (v : Z) (f : Flags) : Flags :=
  mkFlags (interfaceName f) (destMAC f) (destIP f) (srcIP f) (destPort f)
          (srcPort f) (pps f) (payloadSize f) (duration f) v.

Definition with_ports (sp dp : Z) (f : Flags) : Flags :=
  mkFlags (interfaceName f) (destMAC f) (destIP f) (srcIP f) dp
          sp (pps f) (payloadSize f) (duration f) (reportInterval f).

(* ------------------------------------------------------------------ *)
(** ** The capture replay tool

    The second program of the repository: it reads the first packet of a
    capture file and writes it to a fixed interface, as fast as it can,
    for five seconds. *)

Module Replay.

(** The interface the frames are written to (the Go literal escapes each
    backslash). *)
Definition interfaceName : string :=
  "\Device\NPF_{96065AE6-861D-443F-96DC-5586B880BB6D}".

Definition duration : Time.Duration := 5 * Time.Second.

(** What the program takes from its host: the command line, the device
    list, the packets a capture file delivers in order ([None] when the
    file cannot be opened) and whether an interface opens. *)
Record Host : Type := mkHost {
  Args : list string;
  FindAllDevs : option (list string);
  OpenOffline : string -> option (list (list byte));
  OpenLive : string -> bool
}.

(** How the send loop of lines 77-83 ends, with the frames written so far.
    The loop is driven by what it observes: at each test of its condition
    a reading of [time.Since(startTime)], and, if it writes, whether
    [WritePacketData] succeeded. *)
Inductive LoopEnd : Type :=
| Elapsed (packetsSent : Z) (wire : list (list byte))
| WriteFailed (wire : list (list byte))
| StillSending (packetsSent : Z) (wire : list (list byte)).

Fixpoint send_loop (firstPacket : list byte)
         (obs : list (Time.Duration * bool))
         (packetsSent : Z) (wire : list (list byte)) : LoopEnd :=
  match obs with
  | [] => StillSending packetsSent wire
  | (since, write_ok) :: rest =>
    if since <? duration then
      if write_ok
      then send_loop firstPacket rest (GoInt.i64 (packetsSent + 1))
                     (wire ++ [firstPacket])
      else WriteFailed wire
    else Elapsed packetsSent wire
  end.

(** The figures of the two final log lines. *)
Record Report : Type := mkReport {
  packetsSent : Z;
  packetLen : Z;
  elapsedTime : F64.t;
  totalBytesSent : Z;
  mbps : F64.t
}.

Inductive Result : Type :=
| Fatal (msg : string) (wire : list (list byte))
| Completed (r : Report) (wire : list (list byte))
| Unfinished (wire : list (list byte)).

(** [main], given the observations of the loop and the last reading of
    the clock (line 89). *)
Definition main (h : Host) (obs : list (Time.Duration * bool))
           (final : Time.Duration) : Result :=
  match Args h with
  | [] | [_] => Fatal "Usage: %s <pcap file>" []
  | _ :: pcapFile :: _ =>
    match FindAllDevs h with
    | None => Fatal "Failed to find devices" []
    | Some [] => Fatal "No devices found." []
    | Some _ =>
      match OpenOffline h pcapFile with
      | None => Fatal "Failed to open pcap file" []
      | Some packets =>
        let firstPacket := match packets with
                           | [] => []
                           | p :: _ => p
                           end in
        if (List.length firstPacket =? 0)%nat then
          Fatal "No packets found in PCAP file." []
        else if negb (OpenLive h interfaceName) then
          Fatal "Failed to open device" []
        else
          match send_loop firstPacket obs 0 [] with
          | WriteFailed wire => Fatal "Failed to send packet" wire
          | StillSending _ wire => Unfinished wire
          | Elapsed n wire =>
            let elapsedTime := Time.Seconds final in
            let total :=
              GoInt.mul n (Z.of_nat (List.length firstPacket)) in
            Completed
              (mkReport n (Z.of_nat (List.length firstPacket)) elapsedTime
                        total
                        (F64.div (F64.mul (F64.of_Z total) (F64.of_Z 8))
                                 (F64.mul elapsedTime (F64.of_Z 1000000))))
              wire
          end
      end
    end
  end.

(** The frames a run put on the wire. *)
Definition wire_of (r : Result) : list (list byte) :=
  match r with
  | Fatal _ w | Completed _ w | Unfinished w => w
  end.

(** The observations made while the five seconds had not elapsed. *)
Fixpoint in_time (obs : list (Time.Duration * bool))
  : list (Time.Duration * bool) :=
  match obs with
  | [] => []
  | (since, ok) :: rest =>
    if since <? duration then (since, ok) :: in_time rest else []
  end.

(** A host on which a capture of two packets is replayed. *)
Definition demo : Host :=
  mkHost ["replay"; "udp.pcap"]%string (Some ["eth0"%string])
         (fun f => if String.eqb f "udp.pcap"
                   then Some [[1; 2; 3]; [4; 5; 6; 7]] else None)
         (fun _ => true).

(** Two writes within the five seconds, then a reading of five seconds. *)
Definition demo_obs : list (Time.Duration * bool) :=
  [(0, true); (2000000000, true); (5000000000, true)].

End Replay.

(* ------------------------------------------------------------------ *)
(** ** The receiver: its packet-processing goroutine

    The third program counts the UDP packets a capture handle delivers.
    Its reporter and the end of its [main] are, statement for statement,
    those of the generator, with [packetsReceived] and [bytesReceived] for
    the counters.  Modelled here is the goroutine that differs, lines
    111-139, in an arbitrary environment: the capture may deliver a packet
    or end at any moment, another goroutine may take and release the mutex
    at any moment, and [main] may close [stopChan]. *)

Module Receiver.

(** Who holds the mutex: the processing goroutine, or one of the two
    readers. *)
Inductive Holder : Type := Processor | Reader.

Record Shared : Type := mkShared {
  mu : option Holder;
  packetsReceived : Z;
  bytesReceived : Z;
  stopChan : bool;                 (* [true] once closed *)
  queued : list (list byte);       (* packets waiting in [Packets()] *)
  source_closed : bool;            (* the packet channel was closed *)
  taken : list (list byte)         (* packets received from the channel *)
}.

Inductive PC : Type :=
| W_select      (* line 113 *)
| W_check       (* line 116 *)
| W_size        (* lines 121-128 *)
| W_lock        (* line 130 *)
| W_inc         (* line 131 *)
| W_add         (* line 132 *)
| W_unlock      (* line 133 *)
| W_returned.

Record Locals : Type := mkLocals {
  pc : PC;
  packet : option (list byte);     (* [None] is the nil packet *)
  packetSize : Z
}.

Record State : Type := mkState {
  sh : Shared;
  lo : Locals
}.

Definition set_mu (v : option Holder) (x : Shared) : Shared :=
  mkShared v (packetsReceived x) (bytesReceived x) (stopChan x) (queued x)
           (source_closed x) (taken x).

(** Receiving from [packetSource.Packets()]: the oldest queued packet, or
    the nil packet once the channel is closed and drained; [None] when the
    receive would block. *)
Definition receive (x : Shared) : option (Shared * option (list byte)) :=
  match queued x with
  | p :: rest =>
    Some (mkShared (mu x) (packetsReceived x) (bytesReceived x)
                   (stopChan x) rest (source_closed x) (taken x ++ [p]),
          Some p)
  | [] => if source_closed x then Some (x, None) else None
  end.

(** One statement of the processing goroutine.  When both cases of the
    [select] are ready, [pick_stop] is the choice. *)
Definition processor_step (pick_stop : bool) (s : State) : option State :=
  let x := sh s in
  let l := lo s in
  match pc l with
  | W_select =>
    match receive x, stopChan x with
    | Some (x', p), true =>
      if pick_stop then Some (mkState x (mkLocals W_returned (packet l)
                                                  (packetSize l)))
      else Some (mkState x' (mkLocals W_check p (packetSize l)))
    | Some (x', p), false =>
      Some (mkState x' (mkLocals W_check p (packetSize l)))
    | None, true =>
      Some (mkState x (mkLocals W_returned (packet l) (packetSize l)))
    | None, false => None
    end
  | W_check =>
    match packet l with
    | None => Some (mkState x (mkLocals W_select None (packetSize l)))
    | Some _ => Some (mkState x (mkLocals W_size (packet l) (packetSize l)))
    end
  | W_size =>
    match packet l with
    | Some data =>
      Some (mkState x (mkLocals W_lock (packet l)
                                (Z.of_nat (List.length data))))
    | None => None
    end
  | W_lock =>
    match mu x with
    | None =>
      Some (mkState (set_mu (Some Processor) x)
                    (mkLocals W_inc (packet l) (packetSize l)))
    | Some _ => None
    end
  | W_inc =>
    Some (mkState (mkShared (mu x) (GoInt.u64 (packetsReceived x + 1))
                            (bytesReceived x) (stopChan x) (queued x)
                            (source_closed x) (taken x))
                  (mkLocals W_add (packet l) (packetSize l)))
  | W_add =>
    Some (mkState (mkShared (mu x) (packetsReceived x)
                            (GoInt.u64 (bytesReceived x
                                        + GoInt.u64 (packetSize l)))
                            (stopChan x) (queued x)
                            (source_closed x) (taken x))
                  (mkLocals W_unlock (packet l) (packetSize l)))
  | W_unlock =>
    Some (mkState (set_mu None x)
                  (mkLocals W_select (packet l) (packetSize l)))
  | W_returned => None
  end.

Inductive Action : Type :=
| Run (pick_stop : bool)      (* the processing goroutine moves *)
| Deliver (p : list byte)     (* the capture queues a packet *)
| CloseSource                 (* the packet channel is closed *)
| FireStop                    (* [main] executes [close(stopChan)] *)
| ReaderLocks                 (* a reader executes [mu.Lock()] *)
| ReaderUnlocks.              (* that reader executes [mu.Unlock()] *)

Definition step (a : Action) (s : State) : option State :=
  let x := sh s in
  match a with
  | Run b => processor_step b s
  | Deliver p =>
    if source_closed x then None
    else Some (mkState (mkShared (mu x) (packetsReceived x)
                                 (bytesReceived x) (stopChan x)
                                 (queued x ++ [p]) false (taken x))
                       (lo s))
  | CloseSource =>
    Some (mkState (mkShared (mu x) (packetsReceived x) (bytesReceived x)
                            (stopChan x) (queued x) true (taken x))
                  (lo s))
  | FireStop =>
    if stopChan x then None
    else Some (mkState (mkShared (mu x) (packetsReceived x)
                                 (bytesReceived x) true (queued x)
                                 (source_closed x) (taken x))
                       (lo s))
  | ReaderLocks =>
    match mu x with
    | None => Some (mkState (set_mu (Some Reader) x) (lo s))
    | Some _ => None
    end
  | ReaderUnlocks =>
    match mu x with
    | Some Reader => Some (mkState (set_mu None x) (lo s))
    | _ => None
    end
  end.

Fixpoint exec (acts : list Action) (s : State) : option State :=
  match acts with
  | [] => Some s
  | a :: rest =>
    match step a s with
    | Some s' => exec rest s'
    | None => None
    end
  end.

Definition init : State :=
  mkState (mkShared None 0 0 false [] false []) (mkLocals W_select None 0).

Definition reachable (s : State) : Prop :=
  exists acts, exec acts init = Some s.

(** The received packets whose two additions are complete. *)
Definition added (s : State) : list (list byte) :=
  match pc (lo s), packet (lo s) with
  | (W_check | W_size | W_lock | W_inc | W_add), Some _ =>
    removelast (taken (sh s))
  | _, _ => taken (sh s)
  end.

(** The received packets counted in [packetsReceived]. *)
Definition counted (s : State) : list (list byte) :=
  match pc (lo s) with
  | W_add => taken (sh s)
  | _ => added s
  end.

(** The invariant of the processing goroutine. *)
Record Inv (s : State) : Prop := mkInv {
  inv_holder :
    match pc (lo s) with
    | W_inc | W_add | W_unlock => mu (sh s) = Some Processor
    | _ => mu (sh s) <> Some Processor
    end;
  inv_packet :
    match pc (lo s) with
    | W_size | W_lock | W_inc | W_add =>
      exists data, packet (lo s) = Some data
                   /\ taken (sh s) = added s ++ [data]
                   /\ (pc (lo s) <> W_size ->
                       packetSize (lo s) = Z.of_nat (List.length data))
    | W_check =>
      forall data, packet (lo s) = Some data ->
                   taken (sh s) = added s ++ [data]
    | _ => True
    end;
  inv_packets :
    packetsReceived (sh s) = GoInt.u64 (Z.of_nat (List.length (counted s)));
  inv_bytes :
    bytesReceived (sh s) = GoInt.u64 (total (added s))
}.

(** One packet is delivered and the capture ends; the goroutine counts the
    packet, takes the nil packet once, and a reader takes the lock. *)
Definition demo_run : list Action :=
  [Deliver [1; 2; 3]; CloseSource] ++ repeat (Run false) 9 ++ [ReaderLocks].

End Receiver.

(* ------------------------------------------------------------------ *)
(** ** The forwarding proxy: relaying a plain HTTP response

    [handleHTTP] of the proxy: the request goes to the transport with its
    [RequestURI] emptied, and the response comes back to the client header
    by header. *)

Module Proxy.

(** An [http.Header]: the values under each key ([nil] when absent). *)
Definition Header : Type := string -> list string.

Definition no_header : Header := fun _ => [].

Record Request : Type := mkRequest {
  Method : string;
  Host : string;
  RequestURI : string
}.

(** A response of the transport; [entries] is its header map in the order
    the [range] statement happens to visit it. *)
Record Response : Type := mkResponse {
  entries : list (string * list string);
  StatusCode : Z;
  Body : list byte
}.

(** The calls a handler makes on its [http.ResponseWriter], besides
    changing the header map. *)
Inductive Call : Type :=
| WriteHeader (code : Z)
| Copy (data : list byte)              (* [io.Copy(w, body)] *)
| Error (msg : string) (code : Z).     (* [http.Error(w, msg, code)] *)

Record ResponseWriter : Type := mkWriter {
  header : Header;
  calls : list Call
}.

Definition StatusServiceUnavailable : Z := 503.

Section Handlers.

(** [textproto.CanonicalMIMEHeaderKey], which [Header.Add] applies to its
    key, and the transport's [RoundTrip] (an error text or a response). *)
Variable canon : string -> string.
Variable RoundTrip : Request -> string + Response.

(** [h.Add(key, value)]. *)
Definition Add (h : Header) (key value : string) : Header :=
  fun k => if String.eqb k (canon key) then h k ++ [value] else h k.

(** The inner loop of lines 58-60. *)
Definition add_values (h : Header) (key : string) (values : list string)
  : Header :=
  fold_left (fun acc value => Add acc key value) values h.

(** The loop of lines 57-61. *)
Definition copy_headers (h : Header) (es : list (string * list string))
  : Header :=
  fold_left (fun acc e => add_values acc (fst e) (snd e)) es h.

(** [handleHTTP] (lines 45-67), as seen from its response writer: the
    [fmt.Println] of the error goes to the standard output and
    [resp.Body.Close] releases the body, neither touches the writer. *)
Definition handleHTTP (w : ResponseWriter) (r : Request) : ResponseWriter :=
  match RoundTrip (mkRequest (Method r) (Host r) "") with
  | inl err =>
    mkWriter (header w) (calls w ++ [Error err StatusServiceUnavailable])
  | inr resp =>
    mkWriter (copy_headers (header w) (entries resp))
             (calls w ++ [WriteHeader (StatusCode resp); Copy (Body resp)])
  end.

End Handlers.

(** The canonical keys of a header map are pairwise distinct. *)
Definition distinct_keys (canon : string -> string)
           (es : list (string * list string)) : Prop :=
  NoDup (map (fun e => canon (fst e)) es).

(** A transport answering every request with status 200, two headers (one
    of them with two values) and a three-byte body. *)
Definition demo_resp : Response :=
  mkResponse [("Content-Type", ["text/plain"]);
              ("Set-Cookie", ["a=1"; "b=2"])]%string 200 [104; 105; 10].

Definition demo_transport (r : Request) : string + Response :=
  inr demo_resp.

Definition demo_writer : ResponseWriter := mkWriter no_header [].

End Proxy.

(** Inversion of one step of the receiver. *)
Ltac recv_step_inv H :=
  unfold Receiver.step, Receiver.processor_step, Receiver.receive in H;
  simpl in H;
  break_match_hyp H; inversion H; subst; clear H; simpl in *.

(* ------------------------------------------------------------------ *)
(** * Properties *)

(** ** Machine arithmetic *)

Lemma u64_range z : GoInt.is_u64 (GoInt.u64 z).
Proof. unfold GoInt.is_u64, GoInt.u64. apply Z.mod_pos_bound. lia. Qed.

Lemma u64_small z : GoInt.is_u64 z -> GoInt.u64 z = z.
Proof. unfold GoInt.is_u64, GoInt.u64. intros H. apply Z.mod_small. lia. Qed.

Lemma u64_add_r a b : GoInt.u64 (a + GoInt.u64 b) = GoInt.u64 (a + b).
Proof. unfold GoInt.u64. apply Zplus_mod_idemp_r. Qed.

Lemma u64_add_l a b : GoInt.u64 (GoInt.u64 a + b) = GoInt.u64 (a + b).
Proof. unfold GoInt.u64. apply Zplus_mod_idemp_l. Qed.

Lemma u64_mul_l a b : GoInt.u64 (GoInt.u64 a * b) = GoInt.u64 (a * b).
Proof. unfold GoInt.u64. apply Zmult_mod_idemp_l. Qed.

Lemma i64_small z : GoInt.is_i64 z -> GoInt.i64 z = z.
Proof.
  unfold GoInt.is_i64, GoInt.i64. intros H.
  rewrite Z.mod_small; lia.
Qed.

(** ** Pacing *)

Lemma sleepDuration_value pps :
  0 < pps ->
  sleepDuration pps = Some (1000000 / pps * Time.Microsecond).
Proof.
  intros Hp. unfold sleepDuration, GoInt.div, GoInt.mul.
  destruct (Z.eqb_spec pps 0) as [E | _]; [lia |].
  rewrite Z.quot_div_nonneg by lia.
  assert (Hq : 0 <= 1000000 / pps <= 1000000).
  { split; [apply Z.div_pos; lia |].
    apply Z.div_le_upper_bound; nia. }
  rewrite (i64_small (1000000 / pps)) by (unfold GoInt.is_i64; lia).
  rewrite i64_small; [reflexivity |].
  unfold GoInt.is_i64, Time.Microsecond, Time.Nanosecond. lia.
Qed.

(** C4 (amended).  For a rate [pps > 0] the inter-send delay is
    [1000000 / pps] whole microseconds (the integer quotient); it is never
    negative, and it is strictly positive exactly when [pps <= 1000000]. *)
Theorem sleepDuration_whole_microseconds pps :
  0 < pps ->
  exists d,
    sleepDuration pps = Some d
    /\ d = 1000000 / pps * Time.Microsecond
    /\ 0 <= d
    /\ (0 < d <-> pps <= 1000000).
Proof.
  intros Hp. exists (1000000 / pps * Time.Microsecond).
  split; [apply sleepDuration_value; exact Hp |].
  split; [reflexivity |].
  assert (Hq : 0 <= 1000000 / pps) by (apply Z.div_pos; lia).
  unfold Time.Microsecond, Time.Nanosecond.
  split; [lia |]. split.
  - intros Hd.
    destruct (Z_le_gt_dec pps 1000000) as [Hle | Hgt]; [exact Hle |].
    rewrite Z.div_small in Hd by lia. lia.
  - intros Hle.
    assert (1 <= 1000000 / pps) by (apply Z.div_le_lower_bound; lia).
    lia.
Qed.

Lemma sleepDuration_whole_microseconds_witness :
  exists d,
    sleepDuration 1000 = Some d
    /\ d = 1000000 / 1000 * Time.Microsecond
    /\ 0 <= d
    /\ (0 < d <-> 1000 <= 1000000).
Proof. apply (sleepDuration_whole_microseconds 1000). lia. Defined.

(** C4, as stated, fails: two million packets per second is a positive
    rate and its delay is zero, so the delay is not strictly positive for
    every positive rate. *)
Lemma sleepDuration_zero_at_2000000pps :
  sleepDuration 2000000 = Some 0
  /\ ~ (forall pps, 0 < pps ->
        exists d, sleepDuration pps = Some d /\ 0 < d).
Proof.
  split; [reflexivity |].
  intros H. destruct (H 2000000) as (d & Hd & Hpos); [lia |].
  vm_compute in Hd. inversion Hd; subst d. lia.
Qed.

(** ** Configuration *)

(** The configuration phase never looks at the rate. *)
Lemma configure_ignores_pps P f v :
  configure P (with_pps v f)
  = match configure P f with
    | Started c => Started (with_c_pps v c)
    | r => r
    end.
Proof.
  unfold configure, with_pps; simpl.
  repeat match goal with
         | |- context [if ?b then _ else _] => destruct b
         | |- context [match ?x with _ => _ end] => destruct x
         end; reflexivity.
Qed.

(** Whatever is started carries the rate of the command line unchanged. *)
Lemma configure_keeps_pps P f c :
  configure P f = Started c -> c_pps c = pps f.
Proof.
  unfold configure.
  repeat match goal with
         | |- context [if ?b then _ else _] => destruct b
         | |- context [match ?x with _ => _ end] => destruct x
         end; intros H; inversion H; reflexivity.
Qed.

(** C1, evaluated on the code.  With [-pps 0] on a host where everything
    else is valid, the configuration phase reports no error and starts the
    goroutines; the reporter creates its ticker, and the sender then panics
    with "integer divide by zero" while computing its delay. *)
Theorem zero_rate_is_not_rejected :
  exists c s,
    configure bench (with_pps 0 default_flags) = Started c
    /\ c_pps c = 0
    /\ sleepDuration (c_pps c) = None
    /\ exec bench c [RunReporter false; RunSender true] (init 0) = Some s
    /\ r_pc (reporter s) = R_select
    /\ status (sh s) = Crashed G_sender "integer divide by zero".
Proof.
  destruct (configure bench (with_pps 0 default_flags)) as [c | m | m] eqn:E;
    try (vm_compute in E; discriminate).
  pose proof (configure_keeps_pps _ _ _ E) as Hp. simpl in Hp.
  exists c.
  assert (Hr : c_reportInterval c = 1).
  { vm_compute in E. inversion E. reflexivity. }
  eexists. split; [reflexivity |]. split; [exact Hp |].
  split; [rewrite Hp; reflexivity |].
  unfold exec, step, init; simpl.
  unfold reporter_step; simpl. rewrite Hr; simpl.
  unfold sender_step; simpl. rewrite Hp; simpl.
  split; [reflexivity |]. split; reflexivity.
Qed.

(** A negative rate is not rejected either: the delay is negative and
    [time.Sleep] returns at once. *)
Lemma negative_rate_is_not_rejected :
  exists c,
    configure bench (with_pps (-5) default_flags) = Started c
    /\ sleepDuration (c_pps c) = Some (-200000 * Time.Microsecond).
Proof.
  destruct (configure bench (with_pps (-5) default_flags)) as [c | m | m] eqn:E;
    try (vm_compute in E; discriminate).
  pose proof (configure_keeps_pps _ _ _ E) as Hp. simpl in Hp.
  exists c. split; [reflexivity |]. rewrite Hp. reflexivity.
Qed.

(** ** Schedules *)

Lemma exec_app P c a b s :
  exec P c (a ++ b) s
  = match exec P c a s with
    | Some s' => exec P c b s'
    | None => None
    end.
Proof.
  revert s. induction a as [| x a IH]; intros s; simpl; [reflexivity |].
  destruct (step P c x s); [apply IH | reflexivity].
Qed.

(** Induction over the reachable states. *)
Lemma reachable_ind P c t0 (Q : State -> Prop) :
  Q (init t0) ->
  (forall a s s', Q s -> step P c a s = Some s' -> Q s') ->
  forall s, reachable P c t0 s -> Q s.
Proof.
  intros H0 Hstep s [acts Hacts]. revert s Hacts.
  induction acts as [| a acts IH] using rev_ind; intros s Hacts.
  - simpl in Hacts. inversion Hacts. subst. exact H0.
  - rewrite exec_app in Hacts.
    destruct (exec P c acts (init t0)) as [s1 |] eqn:E; [| discriminate].
    simpl in Hacts. destruct (step P c a s1) as [s2 |] eqn:E2;
      [| discriminate].
    inversion Hacts; subst. eapply Hstep; [apply IH; reflexivity | exact E2].
Qed.

Lemma exec_preserves P c (Q : State -> Prop) :
  (forall a s s', Q s -> step P c a s = Some s' -> Q s') ->
  forall acts s s', Q s -> exec P c acts s = Some s' -> Q s'.
Proof.
  intros Hstep acts. induction acts as [| a acts IH]; intros s s' Hq He.
  - simpl in He. inversion He; subst. exact Hq.
  - simpl in He. destruct (step P c a s) as [s1 |] eqn:E; [| discriminate].
    eapply IH; [eapply Hstep; eauto | exact He].
Qed.

(** ** The stop signal *)

Lemma close_open_closes g x :
  stopChan x = false ->
  stopChan (close_stopChan g x) = true
  /\ status (close_stopChan g x) = status x.
Proof. intros H. unfold close_stopChan. rewrite H. split; reflexivity. Qed.

Lemma close_closed_panics g x :
  stopChan x = true ->
  close_stopChan g x = crash g "close of closed channel" x.
Proof. intros H. unfold close_stopChan. rewrite H. reflexivity. Qed.

(** C2, evaluated on the code.  Fired once by the shutdown path, the stop
    signal is closed and the process runs on.  Fired by the sender's
    duration check and then again by the shutdown path, the second firing
    is a panic ("close of closed channel") in [main]; in the other order,
    with the sender already past its [select], the panic is in the
    sender. *)
Theorem second_close_of_stopChan_panics :
  (exists s,
      exec bench timed_config interrupt_shutdown (init 0) = Some s
      /\ stopChan (sh s) = true /\ status (sh s) = Running)
  /\ (exists s,
      exec bench timed_config (window_elapses ++ interrupt_shutdown) (init 0)
      = Some s
      /\ status (sh s) = Crashed G_main "close of closed channel")
  /\ (exists s,
      exec bench timed_config
           ([RunSender true; Elapse 1000000001; RunSender true]
            ++ interrupt_shutdown ++ [RunSender true]) (init 0)
      = Some s
      /\ status (sh s) = Crashed G_sender "close of closed channel").
Proof.
  split; [| split]; eexists; (split; [vm_compute; reflexivity |]);
    repeat split; reflexivity.
Qed.

(** ** The lifecycle controller *)

(** [main] leaves line 228 only when a signal is in [sigChan], and only an
    interrupt puts one there. *)
Lemma main_blocked_step P c a s s' :
  is_interrupt a = false ->
  m_pc (mainl s) = M_wait -> sigChan (sh s) = false ->
  existsb is_summary (stdout (sh s)) = false ->
  step P c a s = Some s' ->
  m_pc (mainl s') = M_wait /\ sigChan (sh s') = false
  /\ existsb is_summary (stdout (sh s')) = false
  /\ status (sh s') <> Exited.
Proof.
  intros Ha Hpc Hsig Hout Hstep.
  step_inv Hstep; try discriminate;
    rewrite ?existsb_app; simpl; rewrite ?Hout, ?Erun;
    repeat split; auto; try discriminate; try congruence.
Qed.

Lemma main_blocked_exec P c acts :
  forall s s',
  existsb is_interrupt acts = false ->
  m_pc (mainl s) = M_wait -> sigChan (sh s) = false ->
  existsb is_summary (stdout (sh s)) = false ->
  status (sh s) <> Exited ->
  exec P c acts s = Some s' ->
  m_pc (mainl s') = M_wait
  /\ existsb is_summary (stdout (sh s')) = false
  /\ status (sh s') <> Exited.
Proof.
  induction acts as [| a acts IH]; intros s s' Hno Hpc Hsig Hout Hst He.
  - simpl in He. inversion He; subst. auto.
  - simpl in Hno. apply orb_false_iff in Hno. destruct Hno as [Ha Hno].
    simpl in He. destruct (step P c a s) as [s1 |] eqn:E; [| discriminate].
    destruct (main_blocked_step _ _ _ _ _ Ha Hpc Hsig Hout E)
      as (H1 & H2 & H3 & H4).
    eapply IH; eauto.
Qed.

(** C3, evaluated on the code.  With a run window of one second, once the
    window has elapsed and the sender has fired the stop signal and
    returned, [main] is still blocked on line 228: whatever happens next,
    as long as no interrupt arrives, it stays there, prints no summary and
    the process does not exit. *)
Theorem main_sleeps_through_stop_signal acts s :
  existsb is_interrupt acts = false ->
  exec bench timed_config (window_elapses ++ acts) (init 0) = Some s ->
  stopChan (sh s) = true
  /\ s_pc (sender s) = S_returned
  /\ m_pc (mainl s) = M_wait
  /\ existsb is_summary (stdout (sh s)) = false
  /\ status (sh s) <> Exited.
Proof.
  intros Hno He. rewrite exec_app in He.
  destruct (exec bench timed_config window_elapses (init 0)) as [s1 |] eqn:E1;
    [| discriminate].
  vm_compute in E1. inversion E1; subst s1; clear E1.
  match type of He with
  | exec _ _ _ ?s1 = _ =>
    destruct (main_blocked_exec bench timed_config acts s1 s Hno)
      as (H1 & H2 & H3); try reflexivity; try exact He;
      try (simpl; discriminate);
    pose proof (exec_preserves bench timed_config
                  (fun s => stopChan (sh s) = true
                            /\ s_pc (sender s) = S_returned)) as Hp
  end.
  assert (Hs : stopChan (sh s) = true /\ s_pc (sender s) = S_returned).
  { eapply Hp; [| | exact He]; [| split; reflexivity].
    intros a s0 s0' [Hc Hr] Hstep.
    step_inv Hstep; try rewrite Hr in *; try discriminate;
      try rewrite Hc in *; try discriminate; auto. }
  destruct Hs. auto.
Qed.

Lemma main_sleeps_through_stop_signal_witness :
  exists s,
    exec bench timed_config
         (window_elapses ++ [RunReporter false; Elapse 2000000000;
                             TickerFires; RunReporter true])
         (init 0) = Some s
    /\ stopChan (sh s) = true
    /\ s_pc (sender s) = S_returned
    /\ r_pc (reporter s) = R_returned
    /\ m_pc (mainl s) = M_wait
    /\ existsb is_summary (stdout (sh s)) = false
    /\ status (sh s) <> Exited.
Proof.
  eexists. split; [vm_compute; reflexivity |].
  split; [| split; [| split]];
    [| | reflexivity |];
    eapply (main_sleeps_through_stop_signal
              [RunReporter false; Elapse 2000000000;
               TickerFires; RunReporter true]);
    reflexivity.
Defined.

(** On the interrupt path without a run window the shutdown is clean: the
    summary is printed and the process exits with status 0. *)
Example interrupt_path_prints_summary :
  exists s,
    exec bench bench_config clean_interrupt (init 0) = Some s
    /\ status (sh s) = Exited
    /\ stopChan (sh s) = true
    /\ stdout (sh s)
       = [ShuttingDown;
          SummaryLine 0 F64.zero F64.zero
                      (Time.Seconds (200 * Time.Millisecond))].
Proof.
  eexists. split; [vm_compute; reflexivity |].
  repeat split; vm_compute; reflexivity.
Qed.

(** ** The counters and the lock *)

Lemma total_app w1 w2 : total (w1 ++ w2) = total w1 + total w2.
Proof. induction w1 as [| f w1 IH]; simpl; [reflexivity | rewrite IH; lia]. Qed.

Lemma total_nonneg w : 0 <= total w.
Proof. induction w as [| f w IH]; simpl; lia. Qed.

Lemma prefix_of_refl {A} (w : list A) : prefix_of w w.
Proof. exists []. symmetry. apply app_nil_r. Qed.

Lemma prefix_of_nil {A} (w : list A) : prefix_of [] w.
Proof. exists w. reflexivity. Qed.

Lemma prefix_of_app {A} (p w x : list A) :
  prefix_of p w -> prefix_of p (w ++ x).
Proof. intros [r ->]. exists (r ++ x). symmetry. apply app_assoc. Qed.

Lemma prefix_of_trans {A} (p q w : list A) :
  prefix_of p q -> prefix_of q w -> prefix_of p w.
Proof. intros [r ->] [r' ->]. exists (r ++ r'). symmetry. apply app_assoc. Qed.

Lemma prefix_of_length {A} (p w : list A) :
  prefix_of p w -> (List.length p <= List.length w)%nat.
Proof. intros [r ->]. rewrite length_app. lia. Qed.

Lemma prefix_of_total p w : prefix_of p w -> total p <= total w.
Proof.
  intros [r ->]. rewrite total_app. pose proof (total_nonneg r). lia.
Qed.

Lemma inv_init P c t0 : Inv P c (init t0).
Proof.
  constructor; simpl; try discriminate; try reflexivity;
    try (unfold GoInt.is_u64; lia); try (constructor).
  - intros _. exists []. split; [apply prefix_of_nil | reflexivity].
  - intros _. exists []. split; [apply prefix_of_nil | reflexivity].
  - exists []. split; [apply prefix_of_nil | reflexivity].
Qed.

Lemma inv_step P c a s s' :
  Inv P c s -> step P c a s = Some s' -> Inv P c s'.
Proof.
  intros [Hup Hub Hcs Hcr Hcm Hfr Hwi Hpe Hpk Hby Hrh Hrp Hmh Hmp Hrf Hrl]
         Hstep.
  step_inv Hstep.
  all: constructor; unfold counted in *; unfold added in *; simpl in *;
    use_pcs;
    simpl in *; intros; use_pcs; simpl in *; fwd; auto;
    try discriminate; try congruence.
  all: try apply u64_range.
  all: rewrite ?removelast_last in *; modus; auto; try congruence.
  - apply Forall_app. split; [assumption |].
    constructor; [assumption | constructor].
  - pose proof (f_equal (@List.length _) Hpe) as Hl.
    rewrite length_app in Hl; simpl in Hl.
    rewrite Hpk, u64_add_l. f_equal. lia.
  - pose proof (f_equal total Hpe) as Hl.
    rewrite total_app in Hl; simpl in Hl.
    rewrite Hby, u64_add_l, u64_add_r. f_equal. lia.
  - destruct Hrp as (p & Hp & Hs). exists p. split; [| exact Hs].
    rewrite Hpe. apply prefix_of_app. exact Hp.
  - destruct Hmp as (p & Hp & Hs). exists p. split; [| exact Hs].
    rewrite Hpe. apply prefix_of_app. exact Hp.
  - destruct Hrl as (p & Hp & Hs). exists p. split; [| exact Hs].
    rewrite Hpe. apply prefix_of_app. exact Hp.
  - eexists. split; [apply prefix_of_refl |].
    unfold snapshot_of. rewrite Hrh, <- Hby. f_equal. rewrite Hpk.
    destruct (s_pc (sender s)); simpl in *; fwd; congruence.
  - unfold snapshot_of. rewrite Hrh, <- Hby. f_equal. rewrite Hpk.
    destruct (s_pc (sender s)); simpl in *; fwd; congruence.
  - eexists. split; [apply prefix_of_refl |].
    unfold snapshot_of. rewrite Hmh, <- Hby. f_equal. rewrite Hpk.
    destruct (s_pc (sender s)); simpl in *; fwd; congruence.
Qed.

Lemma inv_reachable P c t0 s : reachable P c t0 s -> Inv P c s.
Proof.
  apply reachable_ind; [apply inv_init |].
  intros a s1 s2 H1 H2. eapply inv_step; eauto.
Qed.

Lemma added_prefix_wire P c s :
  Inv P c s -> prefix_of (added s) (wire (sh s)).
Proof.
  intros I. destruct (pending (s_pc (sender s))) eqn:E.
  - exists [packetData (sender s)]. apply (inv_pending _ _ _ I E).
  - unfold added. rewrite E. apply prefix_of_refl.
Qed.

(** No [Unlock] is ever executed on a free mutex. *)
Lemma unlock_never_faults P c t0 s g :
  reachable P c t0 s ->
  status (sh s) <> Crashed g "sync: unlock of unlocked mutex".
Proof.
  intros Hr.
  assert (H : Inv P c s
              /\ status (sh s) <> Crashed g "sync: unlock of unlocked mutex").
  { revert s Hr. apply reachable_ind.
    - split; [apply inv_init | simpl; discriminate].
    - intros a s1 s2 [I Hs] Hstep. split; [eapply inv_step; eauto |].
      pose proof (inv_cs_sender _ _ _ I) as Hcs.
      pose proof (inv_cs_reporter _ _ _ I) as Hcr.
      pose proof (inv_cs_main _ _ _ I) as Hcm.
      step_inv Hstep; rewrite ?Erun; try discriminate; fwd; congruence. }
  apply H.
Qed.

(** Mutual exclusion: at most one goroutine is inside its critical
    section. *)
Lemma mutual_exclusion P c s :
  Inv P c s ->
  (s_in_cs (s_pc (sender s)) = true ->
   r_in_cs (r_pc (reporter s)) = false /\ m_in_cs (m_pc (mainl s)) = false)
  /\ (r_in_cs (r_pc (reporter s)) = true ->
      m_in_cs (m_pc (mainl s)) = false).
Proof.
  intros I. pose proof (inv_cs_sender _ _ _ I) as Hs.
  pose proof (inv_cs_reporter _ _ _ I) as Hr.
  pose proof (inv_cs_main _ _ _ I) as Hm.
  destruct (s_in_cs (s_pc (sender s)));
    destruct (r_in_cs (r_pc (reporter s)));
    destruct (m_in_cs (m_pc (mainl s)));
    try specialize (Hs eq_refl); try specialize (Hr eq_refl);
    try specialize (Hm eq_refl);
    split; intros; try split; try reflexivity; try discriminate;
    congruence.
Qed.

(** C7.  In every state the run can reach, under every schedule, the pair
    a reader holds once it has read both counters (the reporter's
    [currentPackets], [currentBytes]; the final [finalPackets],
    [finalBytes]) is the pair of some prefix of the sequence of completed
    adds, itself a prefix of the frames sent; and while the sender is
    between its two additions no reader is inside its critical section. *)
Theorem snapshots_are_prefix_pairs P c t0 s :
  reachable P c t0 s ->
  prefix_of (added s) (wire (sh s))
  /\ (r_pc (reporter s) <> R_readBytes ->
      exists p, prefix_of p (added s)
        /\ (currentPackets (reporter s), currentBytes (reporter s))
           = snapshot_of p)
  /\ (m_pc (mainl s) <> M_readBytes ->
      exists p, prefix_of p (added s)
        /\ (finalPackets (mainl s), finalBytes (mainl s)) = snapshot_of p)
  /\ (s_in_cs (s_pc (sender s)) = true ->
      mu (sh s) = Some G_sender
      /\ r_in_cs (r_pc (reporter s)) = false
      /\ m_in_cs (m_pc (mainl s)) = false).
Proof.
  intros Hr. pose proof (inv_reachable _ _ _ _ Hr) as I.
  split; [eapply added_prefix_wire; eauto |].
  split; [apply (inv_reporter_pair _ _ _ I) |].
  split; [apply (inv_main_pair _ _ _ I) |].
  intros Hs. split; [apply (inv_cs_sender _ _ _ I Hs) |].
  apply (mutual_exclusion _ _ _ I). exact Hs.
Qed.

Lemma snapshots_are_prefix_pairs_witness :
  exists s,
    exec bench bench_config snapshot_schedule (init 0) = Some s
    /\ (currentPackets (reporter s), currentBytes (reporter s)) = (1, 46)
    /\ prefix_of (added s) (wire (sh s))
    /\ (r_pc (reporter s) <> R_readBytes ->
        exists p, prefix_of p (added s)
          /\ (currentPackets (reporter s), currentBytes (reporter s))
             = snapshot_of p)
    /\ (m_pc (mainl s) <> M_readBytes ->
        exists p, prefix_of p (added s)
          /\ (finalPackets (mainl s), finalBytes (mainl s)) = snapshot_of p)
    /\ (s_in_cs (s_pc (sender s)) = true ->
        mu (sh s) = Some G_sender
        /\ r_in_cs (r_pc (reporter s)) = false
        /\ m_in_cs (m_pc (mainl s)) = false).
Proof.
  eexists. split; [vm_compute; reflexivity |].
  split; [reflexivity |].
  apply (snapshots_are_prefix_pairs bench bench_config 0).
  exists snapshot_schedule. vm_compute. reflexivity.
Defined.

(** ** The two counters against each other *)

Lemma total_uniform L w :
  Forall (fun f => Z.of_nat (List.length f) = L) w ->
  total w = Z.of_nat (List.length w) * L.
Proof.
  induction 1 as [| f w Hf Hw IH]; simpl total; [simpl; lia |].
  rewrite IH, Hf. simpl List.length. lia.
Qed.

Lemma wire_uniform P c s :
  Inv P c s ->
  Forall (fun f => Z.of_nat (List.length f) = frameLen P c) (wire (sh s)).
Proof.
  intros I. pose proof (inv_wire _ _ _ I) as Hw.
  eapply Forall_impl; [| exact Hw].
  intros f Hf. unfold frameLen. simpl in Hf. rewrite Hf. reflexivity.
Qed.

Lemma Forall_prefix {A} (Q : A -> Prop) p w :
  prefix_of p w -> Forall Q w -> Forall Q p.
Proof. intros [r ->] H. apply Forall_app in H. tauto. Qed.

(** C10.  Every frame accepted by the device is the serialized template,
    so all have the length [frameLen]; and in every reachable state in
    which the sender does not hold the lock (in particular whenever the
    lock is free), [bytesSent = packetsSent * frameLen] in [uint64]
    arithmetic, and in plain arithmetic as long as the product fits. *)
Theorem bytes_are_packets_times_frame_length P c t0 s :
  reachable P c t0 s ->
  Forall (fun f => SerializeLayers P (tmpl c) = Some f
                   /\ Z.of_nat (List.length f) = frameLen P c) (wire (sh s))
  /\ (mu (sh s) <> Some G_sender ->
      bytesSent (sh s) = GoInt.u64 (packetsSent (sh s) * frameLen P c)
      /\ (packetsSent (sh s) * frameLen P c < 2 ^ 64 ->
          bytesSent (sh s) = packetsSent (sh s) * frameLen P c)).
Proof.
  intros Hr. pose proof (inv_reachable _ _ _ _ Hr) as I.
  pose proof (wire_uniform _ _ _ I) as Hu.
  split.
  { pose proof (inv_wire _ _ _ I) as Hw.
    rewrite Forall_forall in *. intros f Hf. split; auto. }
  intros Hmu.
  assert (Hcs : s_in_cs (s_pc (sender s)) = false).
  { destruct (s_in_cs (s_pc (sender s))) eqn:E; [| reflexivity].
    elim Hmu. apply (inv_cs_sender _ _ _ I E). }
  assert (Hc : counted s = added s).
  { unfold counted. destruct (s_pc (sender s)); try reflexivity.
    discriminate. }
  pose proof (inv_packets _ _ _ I) as Hp. rewrite Hc in Hp.
  pose proof (inv_bytes _ _ _ I) as Hb.
  pose proof (Forall_prefix _ _ _ (added_prefix_wire _ _ _ I) Hu) as Ha.
  rewrite (total_uniform _ _ Ha) in Hb.
  assert (Heq : bytesSent (sh s)
                = GoInt.u64 (packetsSent (sh s) * frameLen P c)).
  { rewrite Hb, Hp, u64_mul_l. reflexivity. }
  split; [exact Heq |].
  intros Hfit. rewrite Heq. apply u64_small. split; [| exact Hfit].
  pose proof (inv_u64_packets _ _ _ I) as [H0 _].
  assert (0 <= frameLen P c).
  { unfold frameLen. destruct (SerializeLayers P (tmpl c)); lia. }
  nia.
Qed.

Lemma bytes_are_packets_times_frame_length_witness :
  exists s,
    exec bench bench_config snapshot_schedule (init 0) = Some s
    /\ frameLen bench bench_config = 46
    /\ packetsSent (sh s) = 1 /\ bytesSent (sh s) = 46
    /\ Forall (fun f => SerializeLayers bench (tmpl bench_config) = Some f
                        /\ Z.of_nat (List.length f)
                           = frameLen bench bench_config) (wire (sh s))
    /\ (mu (sh s) <> Some G_sender ->
        bytesSent (sh s)
        = GoInt.u64 (packetsSent (sh s) * frameLen bench bench_config)
        /\ (packetsSent (sh s) * frameLen bench bench_config < 2 ^ 64 ->
            bytesSent (sh s)
            = packetsSent (sh s) * frameLen bench bench_config)).
Proof.
  eexists. split; [vm_compute; reflexivity |].
  split; [reflexivity |]. split; [reflexivity |]. split; [reflexivity |].
  apply (bytes_are_packets_times_frame_length bench bench_config 0).
  exists snapshot_schedule. vm_compute. reflexivity.
Defined.

(** ** The run window *)

(** Without a positive duration no statement of the sender touches
    [stopChan] (or panics on it). *)
Lemma sender_never_fires P c w s s' :
  c_duration c <= 0 ->
  step P c (RunSender w) s = Some s' ->
  stopChan (sh s') = stopChan (sh s)
  /\ (status (sh s') = Crashed G_sender "close of closed channel" -> False).
Proof.
  intros Hd Hstep.
  assert (Hz : (0 <? c_duration c) = false) by (apply Z.ltb_ge; exact Hd).
  step_inv Hstep; try rewrite Hz in *; simpl in *; try discriminate;
    split; try reflexivity; rewrite ?Erun; intros; try discriminate;
    congruence.
Qed.

(** Without a positive duration, [stopChan] is closed only by [main], and
    the sender returns only after that. *)
Lemma only_main_fires_step P c a s s' :
  c_duration c <= 0 ->
  (stopChan (sh s) = true -> m_closed (m_pc (mainl s)) = true) ->
  (s_pc (sender s) = S_returned -> stopChan (sh s) = true) ->
  step P c a s = Some s' ->
  (stopChan (sh s') = true -> m_closed (m_pc (mainl s')) = true)
  /\ (s_pc (sender s') = S_returned -> stopChan (sh s') = true).
Proof.
  intros Hd H1 H2 Hstep.
  assert (Hz : (0 <? c_duration c) = false) by (apply Z.ltb_ge; exact Hd).
  step_inv Hstep; try rewrite Hz in *; simpl in *; try discriminate;
    use_pcs; simpl in *; split; intros; auto; try discriminate;
    try congruence.
  all: repeat match goal with
              | E : stopChan _ = _ |- _ => rewrite E in *
              end; fwd; auto; try discriminate.
Qed.

(** C6.  With a run window of zero duration: no statement of the sender
    ever changes the stop signal (its duration check never fires it), the
    signal is fired only by [main]'s shutdown path, and the sender returns
    only once the signal has been fired that way. *)
Theorem zero_duration_is_unbounded P c t0 s :
  c_duration c = 0 ->
  reachable P c t0 s ->
  (forall w s', step P c (RunSender w) s = Some s' ->
                stopChan (sh s') = stopChan (sh s))
  /\ (stopChan (sh s) = true -> m_closed (m_pc (mainl s)) = true)
  /\ (s_pc (sender s) = S_returned ->
      stopChan (sh s) = true /\ m_closed (m_pc (mainl s)) = true).
Proof.
  intros Hd Hr. assert (Hle : c_duration c <= 0) by lia.
  split.
  { intros w s' Hs. apply (sender_never_fires _ _ _ _ _ Hle Hs). }
  assert (HJ : (stopChan (sh s) = true -> m_closed (m_pc (mainl s)) = true)
               /\ (s_pc (sender s) = S_returned -> stopChan (sh s) = true)).
  { revert s Hr. apply reachable_ind.
    - simpl. split; discriminate.
    - intros a s1 s2 [H1 H2] Hs.
      eapply only_main_fires_step; eauto. }
  destruct HJ as [H1 H2]. split; [exact H1 |].
  intros Hret. split; auto.
Qed.

Lemma zero_duration_is_unbounded_witness :
  exists s,
    exec bench bench_config interrupted_run (init 0) = Some s
    /\ s_pc (sender s) = S_returned
    /\ (forall w s', step bench bench_config (RunSender w) s = Some s' ->
                     stopChan (sh s') = stopChan (sh s))
    /\ (stopChan (sh s) = true -> m_closed (m_pc (mainl s)) = true)
    /\ (s_pc (sender s) = S_returned ->
        stopChan (sh s) = true /\ m_closed (m_pc (mainl s)) = true).
Proof.
  eexists. split; [vm_compute; reflexivity |]. split; [reflexivity |].
  apply (zero_duration_is_unbounded bench bench_config 0);
    [reflexivity |].
  exists interrupted_run. vm_compute. reflexivity.
Defined.

(** ** Failed iterations *)

Example sender_at_loop_head_reached :
  exec bench bench_config [RunSender true] (init 0)
  = Some sender_at_loop_head.
Proof. reflexivity. Qed.

(** C5.  An iteration of the sender that starts with the stop signal not
    fired and the run window open, and in which serialization fails or the
    transmit call fails, executes three (respectively four) statements and
    is back at the head of the loop: one warning was logged and nothing
    else changed, so both counters, the frames sent, the mutex, the stop
    signal and the process status are as before; the next statement of the
    sender then enters iteration k+1 by the default branch of the
    [select]. *)
Theorem failed_iteration_is_skipped P c s w :
  status (sh s) = Running ->
  s_pc (sender s) = S_select ->
  stopChan (sh s) = false ->
  window_open c s ->
  SerializeLayers P (tmpl c) = None \/ w = false ->
  exists n warning s',
    exec P c (repeat (RunSender w) n) s = Some s'
    /\ (3 <= n <= 4)%nat
    /\ sh s' = set_stderr (stderr (sh s) ++ [warning]) (sh s)
    /\ packetsSent (sh s') = packetsSent (sh s)
    /\ bytesSent (sh s') = bytesSent (sh s)
    /\ wire (sh s') = wire (sh s)
    /\ stopChan (sh s') = false
    /\ status (sh s') = Running
    /\ s_pc (sender s') = S_select
    /\ reporter s' = reporter s /\ mainl s' = mainl s
    /\ exists s'',
        step P c (RunSender w) s' = Some s''
        /\ s_pc (sender s'') = S_check /\ sh s'' = sh s'.
Proof.
  intros Hrun Hpc Hstop Hopen Hfail. unfold window_open in Hopen.
  destruct s as [[st nw t0 sg sc m ps bs tk wr so se] [pc sd et pd wk] r ml].
  simpl in *. subst st pc sc.
  destruct (SerializeLayers P (tmpl c)) as [data |] eqn:Eser.
  - destruct Hfail as [Hf | ->]; [discriminate |].
    exists 4%nat, FailedToSend. eexists. split.
    { unfold exec, step, sender_step; simpl.
      rewrite Hopen. simpl. rewrite Eser. simpl. reflexivity. }
    simpl. repeat (split; [try reflexivity; try lia |]).
    eexists. split; [reflexivity | split; reflexivity].
  - exists 3%nat, FailedToSerialize. eexists. split.
    { unfold exec, step, sender_step; simpl.
      rewrite Hopen. simpl. rewrite Eser. simpl. reflexivity. }
    simpl. repeat (split; [try reflexivity; try lia |]).
    eexists. split; [reflexivity | split; reflexivity].
Qed.

Lemma failed_iteration_is_skipped_witness :
  exists n warning s',
    exec bench bench_config (repeat (RunSender false) n) sender_at_loop_head
    = Some s'
    /\ (3 <= n <= 4)%nat
    /\ sh s' = set_stderr (stderr (sh sender_at_loop_head) ++ [warning])
                          (sh sender_at_loop_head)
    /\ packetsSent (sh s') = packetsSent (sh sender_at_loop_head)
    /\ bytesSent (sh s') = bytesSent (sh sender_at_loop_head)
    /\ wire (sh s') = wire (sh sender_at_loop_head)
    /\ stopChan (sh s') = false
    /\ status (sh s') = Running
    /\ s_pc (sender s') = S_select
    /\ reporter s' = reporter sender_at_loop_head
    /\ mainl s' = mainl sender_at_loop_head
    /\ exists s'',
        step bench bench_config (RunSender false) s' = Some s''
        /\ s_pc (sender s'') = S_check /\ sh s'' = sh s'.
Proof.
  apply (failed_iteration_is_skipped bench bench_config
           sender_at_loop_head false);
    [reflexivity | reflexivity | reflexivity | reflexivity
    | right; reflexivity].
Defined.

Example transmit_failure_logged :
  exists s,
    exec bench bench_config (repeat (RunSender false) 4) sender_at_loop_head
    = Some s
    /\ stderr (sh s) = [FailedToSend]
    /\ (packetsSent (sh s), bytesSent (sh s)) = (0, 0)
    /\ wire (sh s) = [].
Proof. eexists. split; [reflexivity |]. repeat split. Qed.

Example serialization_failure_logged :
  exists s,
    exec mute_bench bench_config (repeat (RunSender true) 3)
         sender_at_loop_head = Some s
    /\ stderr (sh s) = [FailedToSerialize]
    /\ (packetsSent (sh s), bytesSent (sh s)) = (0, 0)
    /\ wire (sh s) = [].
Proof. eexists. split; [reflexivity |]. repeat split. Qed.

(** ** Monotonicity of the counters *)

(** A step changes the counters only at lines 217 and 218, executed by the
    sender while it holds the lock, and then by a wrapping addition. *)
Lemma counters_change_only_under_lock P c a s s' :
  Inv P c s -> step P c a s = Some s' ->
  (packetsSent (sh s') = packetsSent (sh s)
   \/ (exists w, a = RunSender w) /\ s_pc (sender s) = S_inc
      /\ mu (sh s) = Some G_sender
      /\ packetsSent (sh s') = GoInt.u64 (packetsSent (sh s) + 1))
  /\ (bytesSent (sh s') = bytesSent (sh s)
      \/ (exists w, a = RunSender w) /\ s_pc (sender s) = S_add
         /\ mu (sh s) = Some G_sender
         /\ bytesSent (sh s')
            = GoInt.u64 (bytesSent (sh s)
                         + Z.of_nat (List.length (packetData (sender s))))).
Proof.
  intros I Hstep. pose proof (inv_cs_sender _ _ _ I) as Hcs.
  step_inv Hstep; split; auto; specialize (Hcs eq_refl); right;
    rewrite ?u64_add_r; eauto.
Qed.

(** The lists the counters account for only grow. *)
Lemma accounted_lists_grow P c a s s' :
  Inv P c s -> step P c a s = Some s' ->
  prefix_of (added s) (added s') /\ prefix_of (counted s) (counted s').
Proof.
  intros I Hstep. pose proof (inv_pending _ _ _ I) as Hpe.
  unfold counted, added in *.
  step_inv Hstep; use_pcs; simpl in *; fwd;
    rewrite ?removelast_last;
    try (split; apply prefix_of_refl).
  all: try (rewrite Hpe at 2 3; rewrite removelast_last).
  all: try (split; [apply prefix_of_refl
                   | exists [packetData (sender s)]; auto]).
  all: try (split; [exists [packetData (sender s)]; auto
                   | apply prefix_of_refl]).
Qed.

Lemma counted_prefix_wire P c s :
  Inv P c s -> prefix_of (counted s) (wire (sh s)).
Proof.
  intros I. pose proof (added_prefix_wire _ _ _ I) as Ha.
  unfold counted. destruct (s_pc (sender s)); auto using prefix_of_refl.
Qed.

Lemma accounted_lists_grow_exec P c acts :
  forall s s',
  Inv P c s -> exec P c acts s = Some s' ->
  Inv P c s'
  /\ prefix_of (added s) (added s') /\ prefix_of (counted s) (counted s').
Proof.
  induction acts as [| a acts IH]; intros s s' I He; simpl in He.
  - inversion He; subst. auto using prefix_of_refl.
  - destruct (step P c a s) as [s1 |] eqn:E; [| discriminate].
    pose proof (inv_step _ _ _ _ _ I E) as I1.
    destruct (accounted_lists_grow _ _ _ _ _ I E) as [H1 H2].
    destruct (IH _ _ I1 He) as (I' & H3 & H4).
    split; [exact I' |]. split; eapply prefix_of_trans; eauto.
Qed.

(** C9 (amended).  From any reachable state, every step leaves each
    counter unchanged or is the sender's addition at line 217 or 218,
    executed while the sender holds the lock and wrapping at [2^64]; and
    along any continuation of the run after which fewer than [2^64] frames
    and fewer than [2^64] bytes have been sent in total, neither counter
    ever decreases. *)
Theorem counters_monotone_until_wrap P c t0 s :
  reachable P c t0 s ->
  (forall a s1, step P c a s = Some s1 ->
     (packetsSent (sh s1) = packetsSent (sh s)
      \/ (exists w, a = RunSender w) /\ s_pc (sender s) = S_inc
         /\ mu (sh s) = Some G_sender
         /\ packetsSent (sh s1) = GoInt.u64 (packetsSent (sh s) + 1))
     /\ (bytesSent (sh s1) = bytesSent (sh s)
         \/ (exists w, a = RunSender w) /\ s_pc (sender s) = S_add
            /\ mu (sh s) = Some G_sender
            /\ bytesSent (sh s1)
               = GoInt.u64
                   (bytesSent (sh s)
                    + Z.of_nat (List.length (packetData (sender s))))))
  /\ (forall acts s',
        exec P c acts s = Some s' ->
        Z.of_nat (List.length (wire (sh s'))) < 2 ^ 64 ->
        total (wire (sh s')) < 2 ^ 64 ->
        packetsSent (sh s) <= packetsSent (sh s')
        /\ bytesSent (sh s) <= bytesSent (sh s')).
Proof.
  intros Hr. pose proof (inv_reachable _ _ _ _ Hr) as I.
  split.
  { intros a s1 Hs. eapply counters_change_only_under_lock; eauto. }
  intros acts s' He Hn Hb.
  destruct (accounted_lists_grow_exec _ _ _ _ _ I He) as (I' & Ha & Hc).
  pose proof (counted_prefix_wire _ _ _ I') as Hcw.
  pose proof (added_prefix_wire _ _ _ I') as Haw.
  pose proof (prefix_of_length _ _ Hc) as L1.
  pose proof (prefix_of_length _ _ Hcw) as L2.
  pose proof (prefix_of_total _ _ Ha) as T1.
  pose proof (prefix_of_total _ _ Haw) as T2.
  pose proof (total_nonneg (added s)) as T0.
  rewrite (inv_packets _ _ _ I), (inv_packets _ _ _ I').
  rewrite (inv_bytes _ _ _ I), (inv_bytes _ _ _ I').
  rewrite !u64_small by (unfold GoInt.is_u64; lia).
  lia.
Qed.

Lemma counters_monotone_until_wrap_witness :
  exists s,
    exec bench bench_config snapshot_schedule (init 0) = Some s
    /\ (forall a s1, step bench bench_config a s = Some s1 ->
         (packetsSent (sh s1) = packetsSent (sh s)
          \/ (exists w, a = RunSender w) /\ s_pc (sender s) = S_inc
             /\ mu (sh s) = Some G_sender
             /\ packetsSent (sh s1) = GoInt.u64 (packetsSent (sh s) + 1))
         /\ (bytesSent (sh s1) = bytesSent (sh s)
             \/ (exists w, a = RunSender w) /\ s_pc (sender s) = S_add
                /\ mu (sh s) = Some G_sender
                /\ bytesSent (sh s1)
                   = GoInt.u64
                       (bytesSent (sh s)
                        + Z.of_nat (List.length (packetData (sender s))))))
    /\ (forall acts s',
          exec bench bench_config acts s = Some s' ->
          Z.of_nat (List.length (wire (sh s'))) < 2 ^ 64 ->
          total (wire (sh s')) < 2 ^ 64 ->
          packetsSent (sh s) <= packetsSent (sh s')
          /\ bytesSent (sh s) <= bytesSent (sh s')).
Proof.
  eexists. split; [vm_compute; reflexivity |].
  apply (counters_monotone_until_wrap bench bench_config 0).
  exists snapshot_schedule. vm_compute. reflexivity.
Defined.

(** At two million packets per second a full iteration goes through
    without waiting and leaves the sender ready for the next one. *)
Lemma one_send_ok s :
  ready s ->
  exists s',
    exec bench fast_config one_send s = Some s'
    /\ ready s'
    /\ packetsSent (sh s') = GoInt.u64 (packetsSent (sh s) + 1).
Proof.
  intros (Hrun & Hpc & Hstop & Hmu & Hd).
  destruct s as [[st nw t0 sg sc m ps bs tk wr so se] [pc sd et pd wk] r ml].
  simpl in *. subst st pc sc m sd.
  eexists. split.
  { unfold one_send, exec, step, sender_step; simpl.
    unfold Time.Add. rewrite Z.add_0_r, Z.leb_refl. reflexivity. }
  simpl. unfold ready; simpl. auto 10.
Qed.

Lemma sends_ok n :
  forall s,
  ready s -> GoInt.is_u64 (packetsSent (sh s)) ->
  exists s',
    exec bench fast_config (sends n) s = Some s'
    /\ ready s'
    /\ packetsSent (sh s') = GoInt.u64 (packetsSent (sh s) + Z.of_nat n).
Proof.
  induction n as [| n IH]; intros s Hs Hu.
  - exists s. split; [reflexivity |]. split; [exact Hs |].
    rewrite Z.add_0_r. symmetry. apply u64_small. exact Hu.
  - destruct (one_send_ok s Hs) as (s1 & E1 & R1 & P1).
    destruct (IH s1 R1) as (s2 & E2 & R2 & P2).
    { rewrite P1. apply u64_range. }
    exists s2. split; [| split; [exact R2 |]].
    + unfold sends. change (repeat one_send (S n))
        with (one_send :: repeat one_send n).
      change (List.concat (one_send :: repeat one_send n))
        with (one_send ++ sends n).
      rewrite exec_app, E1. exact E2.
    + rewrite P2, P1, u64_add_l. f_equal. lia.
Qed.

Lemma up_to_lock_ok s :
  ready s ->
  exists s',
    exec bench fast_config up_to_lock s = Some s'
    /\ status (sh s') = Running
    /\ s_pc (sender s') = S_inc
    /\ packetsSent (sh s') = packetsSent (sh s).
Proof.
  intros (Hrun & Hpc & Hstop & Hmu & Hd).
  destruct s as [[st nw t0 sg sc m ps bs tk wr so se] [pc sd et pd wk] r ml].
  simpl in *. subst st pc sc m sd.
  eexists. split; [reflexivity |]. simpl. auto.
Qed.

(** C9, as stated, fails: at two million packets per second, after
    [2^64 - 1] frames the counter [packetsSent] holds [2^64 - 1], and the
    increment of the next frame, line 217, brings it down to 0. *)
Lemma packetsSent_wraps_to_zero :
  exists s s',
    exec bench fast_config wrap_schedule (init 0) = Some s
    /\ step bench fast_config (RunSender true) s = Some s'
    /\ packetsSent (sh s) = 2 ^ 64 - 1
    /\ packetsSent (sh s') = 0
    /\ packetsSent (sh s') < packetsSent (sh s).
Proof.
  assert (H0 : exists s0,
             exec bench fast_config [RunSender true] (init 0) = Some s0
             /\ ready s0 /\ packetsSent (sh s0) = 0).
  { eexists. split; [reflexivity |]. unfold ready; simpl. auto 10. }
  destruct H0 as (s0 & E0 & R0 & P0).
  destruct (sends_ok (Z.to_nat (2 ^ 64 - 1)) s0 R0) as (s1 & E1 & R1 & P1).
  { rewrite P0. unfold GoInt.is_u64. lia. }
  rewrite Z2Nat.id in P1 by lia. rewrite P0 in P1.
  destruct (up_to_lock_ok s1 R1) as (s2 & E2 & Hrun & Hpc & P2).
  assert (Hp : packetsSent (sh s2) = 2 ^ 64 - 1).
  { rewrite P2, P1. reflexivity. }
  exists s2.
  exists (mkState (set_packetsSent (GoInt.u64 (packetsSent (sh s2) + 1))
                                   (sh s2))
                  (set_s_pc S_add (sender s2)) (reporter s2) (mainl s2)).
  split.
  { unfold wrap_schedule. rewrite exec_app, E0, exec_app, E1. exact E2. }
  split.
  { unfold step. rewrite Hrun. unfold sender_step. rewrite Hpc. reflexivity. }
  split; [exact Hp |]. simpl. rewrite Hp.
  split; [reflexivity |]. change (GoInt.u64 (2 ^ 64 - 1 + 1)) with 0. lia.
Qed.

(** ** Floating point *)













Lemma bitrate_in_words intervalBytes interval :
  bitrate intervalBytes interval
  = F64.div (interval_bits_per_second intervalBytes interval)
            (F64.of_Z 1000000).
Proof. reflexivity. Qed.

(** ** The reporter's tick *)




(** One frame of 46 bytes in a one-second interval: 1 packet, 46 bytes,
    and the bitrate [46 * 8 / 1 / 1000000], the binary64 nearest to
    0.000368. *)
Example tick_after_one_frame :
  exists s,
    exec bench bench_config
         (snapshot_schedule ++ repeat (RunReporter false) 3) (init 0)
    = Some s
    /\ (intervalPackets (reporter s), intervalBytes (reporter s)) = (1, 46)
    /\ stdout (sh s)
       = [StatusLine (S754_finite false 6788401819125115 (-64)) 1
                     (F64.of_Z 1) (megabytes 46)].
Proof.
  eexists. split; [vm_compute; reflexivity |].
  split; [reflexivity |]. vm_compute. reflexivity.
Qed.

(** A tick with nothing sent prints a bitrate of zero, no packets, an
    average rate of zero and a total of zero. *)
Example idle_tick_prints_zero :
  exists s,
    exec bench bench_config idle_tick (init 0) = Some s
    /\ stdout (sh s) = [StatusLine F64.zero 0 F64.zero F64.zero]
    /\ status (sh s) = Running.
Proof. eexists. split; [vm_compute; reflexivity |]. split; reflexivity. Qed.

(** * Further properties of the generator *)

(** ** Panics *)


Lemma sleepDuration_defined pps :
  pps <> 0 -> exists d, sleepDuration pps = Some d.
Proof.
  intros H. unfold sleepDuration, GoInt.div.
  destruct (Z.eqb_spec pps 0); [contradiction | eauto].
Qed.




(** ** After the stop signal *)

Lemma after_stop_step P c a s s' :
  stopChan (sh s) = true ->
  step P c a s = Some s' ->
  stopChan (sh s') = true
  /\ prefix_of (wire (sh s)) (wire (sh s'))
  /\ (List.length (wire (sh s')) + in_flight (s_pc (sender s'))
      <= List.length (wire (sh s)) + in_flight (s_pc (sender s)))%nat.
Proof.
  intros Hc Hstep.
  step_inv Hstep; use_pcs; simpl in *; try discriminate;
    rewrite ?length_app; simpl;
    repeat split; auto using prefix_of_refl; try lia; try congruence.
  all: try (eexists; reflexivity).
Qed.

(** X2.  The stop signal is permanent, and once it is fired the sender
    puts at most one more frame on the wire: the one of the iteration it
    was in, and none if it was not between its [select] and its write. *)
Theorem at_most_one_frame_after_stop P c acts :
  forall s s',
  stopChan (sh s) = true ->
  exec P c acts s = Some s' ->
  stopChan (sh s') = true
  /\ prefix_of (wire (sh s)) (wire (sh s'))
  /\ (List.length (wire (sh s'))
      <= List.length (wire (sh s)) + in_flight (s_pc (sender s)))%nat
  /\ (List.length (wire (sh s')) <= List.length (wire (sh s)) + 1)%nat.
Proof.
  induction acts as [| a acts IH]; intros s s' Hc He; simpl in He.
  - inversion He; subst. repeat split; auto using prefix_of_refl; lia.
  - destruct (step P c a s) as [s1 |] eqn:E; [| discriminate].
    destruct (after_stop_step _ _ _ _ _ Hc E) as (H1 & H2 & H3).
    destruct (IH _ _ H1 He) as (H4 & H5 & H6 & _).
    assert (in_flight (s_pc (sender s)) <= 1)%nat
      by (destruct (s_pc (sender s)); simpl; lia).
    repeat split; auto; try lia.
    eapply prefix_of_trans; eauto.
Qed.

Lemma at_most_one_frame_after_stop_witness :
  exists s s',
    exec bench bench_config
         ([RunSender true; RunSender true] ++ interrupt_shutdown) (init 0)
    = Some s
    /\ exec bench bench_config
            (repeat (RunSender true) 8
             ++ [Elapse 1000000; RunSender true; RunSender true]) s
       = Some s'
    /\ s_pc (sender s) = S_check
    /\ s_pc (sender s') = S_returned
    /\ List.length (wire (sh s')) = 1%nat
    /\ stopChan (sh s') = true
    /\ prefix_of (wire (sh s)) (wire (sh s'))
    /\ (List.length (wire (sh s'))
        <= List.length (wire (sh s)) + in_flight (s_pc (sender s)))%nat
    /\ (List.length (wire (sh s')) <= List.length (wire (sh s)) + 1)%nat.
Proof.
  eexists. eexists. split; [vm_compute; reflexivity |].
  split; [vm_compute; reflexivity |].
  split; [reflexivity |]. split; [reflexivity |]. split; [reflexivity |].
  apply (at_most_one_frame_after_stop bench bench_config
           (repeat (RunSender true) 8
            ++ [Elapse 1000000; RunSender true; RunSender true]));
    [reflexivity | vm_compute; reflexivity].
Defined.

(** ** Pacing *)

Lemma paced_since_step P c d a s s' :
  sleepDuration (c_pps c) = Some d ->
  (s_pc (sender s) <> S_start -> s_sleepDuration (sender s) = d) ->
  step P c a s = Some s' ->
  (s_pc (sender s') <> S_start -> s_sleepDuration (sender s') = d)
  /\ (sent_now s s' = [] ->
      (s_pc (sender s) = S_start -> s_pc (sender s') = S_start
                                     \/ s_pc (sender s') = S_select)
      /\ forall t, paced_since d t s -> paced_since d t s')
  /\ (forall u, sent_now s s' = [u] ->
      u = now (sh s)
      /\ (forall t, paced_since d t s -> t + d <= u)
      /\ paced_since d u s').
Proof.
  intros Hd Hsd Hstep. unfold sent_now, paced_since.
  step_inv Hstep; use_pcs; simpl in *; fwd;
    rewrite ?length_app; simpl;
    repeat match goal with
           | |- context [(?a <? ?b)%nat] =>
             destruct (Nat.ltb_spec a b); try lia
           end.
  all: repeat split; intros; auto; try discriminate; try lia;
    try congruence.
  all: try match goal with
           | H : [_] = [_] |- _ => inversion H; subst; clear H
           end; try lia.
  - unfold Time.Add. rewrite Hsd. lia.
  - destruct (s_pc (sender s)); lia.
Qed.

Lemma paced_cons d u l :
  paced d l ->
  match l with
  | [] => True
  | a :: _ => u + d <= a
  end ->
  paced d (u :: l).
Proof. destruct l; simpl; auto. Qed.

Lemma send_times_paced P c d acts :
  sleepDuration (c_pps c) = Some d ->
  forall s,
  (s_pc (sender s) <> S_start -> s_sleepDuration (sender s) = d) ->
  paced d (send_times P c acts s)
  /\ forall t, paced_since d t s ->
       match send_times P c acts s with
       | [] => True
       | a :: _ => t + d <= a
       end.
Proof.
  intros Hd. induction acts as [| a acts IH]; intros s Hsd; simpl.
  - auto.
  - destruct (step P c a s) as [s1 |] eqn:E; [| simpl; auto].
    destruct (paced_since_step _ _ _ _ _ _ Hd Hsd E) as (Hsd1 & Hnone & Hone).
    destruct (IH s1 Hsd1) as [Hp Hfirst].
    assert (Hcases : sent_now s s1 = [] \/ sent_now s s1 = [now (sh s)]).
    { unfold sent_now. destruct (_ <? _)%nat; auto. }
    destruct Hcases as [E0 | E1].
    + rewrite E0. simpl. split; [exact Hp |].
      intros t Ht. apply Hfirst. apply (proj2 (Hnone E0)). exact Ht.
    + rewrite E1. destruct (Hone _ E1) as (_ & Hgap & Hnew).
      simpl app. split.
      * apply paced_cons; [exact Hp |]. apply Hfirst. exact Hnew.
      * intros t Ht. apply Hgap. exact Ht.
Qed.

(** X3.  Under every schedule, two consecutive frames are accepted by the
    device at least one inter-send delay apart: the achieved rate never
    exceeds one frame per [sleepDuration]. *)
Theorem transmissions_are_paced P c t0 d acts :
  sleepDuration (c_pps c) = Some d ->
  paced d (send_times P c acts (init t0)).
Proof.
  intros Hd. apply (send_times_paced _ _ _ _ Hd).
  simpl. intros H. contradiction H. reflexivity.
Qed.


Lemma transmissions_are_paced_witness :
  send_times bench bench_config
             (repeat (RunSender true) 10
              ++ [Elapse 1000000] ++ repeat (RunSender true) 5) (init 0)
  = [0; 1000000]
  /\ paced (1000 * Time.Microsecond)
           (send_times bench bench_config
                       (repeat (RunSender true) 10
                        ++ [Elapse 1000000] ++ repeat (RunSender true) 5)
                       (init 0)).
Proof.
  split; [vm_compute; reflexivity |].
  apply (transmissions_are_paced bench bench_config 0). reflexivity.
Defined.

(** ** The mutex *)

Lemma holder_in_cs_step P c a s s' :
  Inv P c s -> holder_in_cs s -> step P c a s = Some s' -> holder_in_cs s'.
Proof.
  intros I H Hstep.
  pose proof (inv_cs_sender _ _ _ I) as Hcs.
  pose proof (inv_cs_reporter _ _ _ I) as Hcr.
  pose proof (inv_cs_main _ _ _ I) as Hcm.
  unfold holder_in_cs in *.
  step_inv Hstep; use_pcs; simpl in *; fwd; auto; try congruence;
    try (destruct (mu (sh s)) as [[] |]; simpl in *; auto; congruence).
Qed.

Lemma holder_in_cs_reachable P c t0 s :
  reachable P c t0 s -> Inv P c s /\ holder_in_cs s.
Proof.
  intros Hr. revert s Hr.
  apply (reachable_ind P c t0 (fun s => Inv P c s /\ holder_in_cs s)).
  - split; [apply inv_init | exact I].
  - intros a s1 s2 [I H] Hstep.
    split; [eapply inv_step | eapply holder_in_cs_step]; eauto.
Qed.

(** X4.  Whoever holds the mutex can always run, and frees it within four
    of its own statements without the process leaving the running state:
    no goroutine waits for the lock forever. *)
Theorem lock_is_released_within_four_steps P c t0 s g :
  reachable P c t0 s ->
  status (sh s) = Running ->
  mu (sh s) = Some g ->
  exists n s',
    (1 <= n <= 4)%nat
    /\ exec P c (repeat (run_of g) n) s = Some s'
    /\ mu (sh s') = None
    /\ status (sh s') = Running.
Proof.
  intros Hr Hrun Hmu.
  destruct (holder_in_cs_reachable _ _ _ _ Hr) as [_ H].
  unfold holder_in_cs in H. rewrite Hmu in H.
  destruct s as [[st nw ts sg sc m ps bs tk wr so se]
                 [spc sd et pd wk] [rpc lp lb cp cb ip ib]
                 [mpc mw es fp fb]].
  simpl in *. subst st m.
  destruct g; simpl in H.
  - destruct mpc; try discriminate.
    + exists 3%nat. eexists. split; [lia |]. split; [reflexivity |].
      split; reflexivity.
    + exists 2%nat. eexists. split; [lia |]. split; [reflexivity |].
      split; reflexivity.
    + exists 1%nat. eexists. split; [lia |]. split; [reflexivity |].
      split; reflexivity.
  - destruct rpc; try discriminate.
    + exists 4%nat. eexists. split; [lia |]. split; [reflexivity |].
      split; reflexivity.
    + exists 3%nat. eexists. split; [lia |]. split; [reflexivity |].
      split; reflexivity.
    + exists 2%nat. eexists. split; [lia |]. split; [reflexivity |].
      split; reflexivity.
    + exists 1%nat. eexists. split; [lia |]. split; [reflexivity |].
      split; reflexivity.
  - destruct spc; try discriminate.
    + exists 3%nat. eexists. split; [lia |]. split; [reflexivity |].
      split; reflexivity.
    + exists 2%nat. eexists. split; [lia |]. split; [reflexivity |].
      split; reflexivity.
    + exists 1%nat. eexists. split; [lia |]. split; [reflexivity |].
      split; reflexivity.
Qed.

Lemma lock_is_released_within_four_steps_witness :
  exists s,
    exec bench bench_config snapshot_schedule (init 0) = Some s
    /\ mu (sh s) = Some G_reporter
    /\ exists n s',
        (1 <= n <= 4)%nat
        /\ exec bench bench_config (repeat (run_of G_reporter) n) s = Some s'
        /\ mu (sh s') = None
        /\ status (sh s') = Running.
Proof.
  eexists. split; [vm_compute; reflexivity |]. split; [reflexivity |].
  apply (lock_is_released_within_four_steps bench bench_config 0);
    [exists snapshot_schedule; vm_compute; reflexivity
    | reflexivity | reflexivity].
Defined.

(** ** Shutdown *)

Lemma filter_snoc {A} (f : A -> bool) l x :
  filter f (l ++ [x]) = if f x then filter f l ++ [x] else filter f l.
Proof.
  rewrite filter_app. simpl. destruct (f x); [reflexivity |].
  apply app_nil_r.
Qed.

Lemma shutdown_step P c a s s' :
  (List.length (filter is_summary (stdout (sh s)))
   = if m_summarized (m_pc (mainl s)) then 1%nat else 0%nat) ->
  (List.length (filter is_shutting_down (stdout (sh s)))
   = if m_announced (m_pc (mainl s)) then 1%nat else 0%nat) ->
  (m_closed (m_pc (mainl s)) = true -> stopChan (sh s) = true) ->
  (m_summarized (m_pc (mainl s)) = true ->
   In (SummaryLine (finalPackets (mainl s))
                   (megabytes (finalBytes (mainl s)))
                   (avgBitrate (finalBytes (mainl s)) (elapsedSec (mainl s)))
                   (elapsedSec (mainl s))) (stdout (sh s))) ->
  step P c a s = Some s' ->
  (List.length (filter is_summary (stdout (sh s')))
   = if m_summarized (m_pc (mainl s')) then 1%nat else 0%nat)
  /\ (List.length (filter is_shutting_down (stdout (sh s')))
      = if m_announced (m_pc (mainl s')) then 1%nat else 0%nat)
  /\ (m_closed (m_pc (mainl s')) = true -> stopChan (sh s') = true)
  /\ (m_summarized (m_pc (mainl s')) = true ->
      In (SummaryLine (finalPackets (mainl s'))
                      (megabytes (finalBytes (mainl s')))
                      (avgBitrate (finalBytes (mainl s'))
                                  (elapsedSec (mainl s')))
                      (elapsedSec (mainl s'))) (stdout (sh s')))
  /\ (status (sh s') = Exited -> m_pc (mainl s') = M_done).
Proof.
  intros H1 H2 H3 H4 Hstep.
  step_inv Hstep; use_pcs; simpl in *; fwd;
    rewrite ?filter_snoc; simpl; rewrite ?length_app; simpl;
    rewrite ?H1, ?H2, ?Erun;
    repeat split; intros; auto; try discriminate; try congruence;
    try (apply in_or_app; simpl; auto).
  all: modus; discriminate.
Qed.

(** X5.  In every reachable state "Shutting down..." and the summary have
    each been printed at most once, the summary only after the
    announcement and after [close(stopChan)]; and when the process has
    exited with status 0, both were printed exactly once, the stop signal
    is fired, and the summary shows the pair [main] read under the
    lock, which is the pair of a prefix of the completed adds. *)
Theorem exit_only_after_one_summary P c t0 s :
  reachable P c t0 s ->
  (List.length (filter is_summary (stdout (sh s)))
   = if m_summarized (m_pc (mainl s)) then 1%nat else 0%nat)
  /\ (List.length (filter is_shutting_down (stdout (sh s)))
      = if m_announced (m_pc (mainl s)) then 1%nat else 0%nat)
  /\ (m_summarized (m_pc (mainl s)) = true ->
      m_announced (m_pc (mainl s)) = true /\ stopChan (sh s) = true)
  /\ (status (sh s) = Exited ->
      m_pc (mainl s) = M_done
      /\ stopChan (sh s) = true
      /\ In (SummaryLine (finalPackets (mainl s))
                         (megabytes (finalBytes (mainl s)))
                         (avgBitrate (finalBytes (mainl s))
                                     (elapsedSec (mainl s)))
                         (elapsedSec (mainl s))) (stdout (sh s))
      /\ exists p, prefix_of p (added s)
           /\ (finalPackets (mainl s), finalBytes (mainl s))
              = snapshot_of p).
Proof.
  intros Hr. pose proof (inv_reachable _ _ _ _ Hr) as I.
  assert (H :
    (List.length (filter is_summary (stdout (sh s)))
     = if m_summarized (m_pc (mainl s)) then 1%nat else 0%nat)
    /\ (List.length (filter is_shutting_down (stdout (sh s)))
        = if m_announced (m_pc (mainl s)) then 1%nat else 0%nat)
    /\ (m_closed (m_pc (mainl s)) = true -> stopChan (sh s) = true)
    /\ (m_summarized (m_pc (mainl s)) = true ->
        In (SummaryLine (finalPackets (mainl s))
                        (megabytes (finalBytes (mainl s)))
                        (avgBitrate (finalBytes (mainl s))
                                    (elapsedSec (mainl s)))
                        (elapsedSec (mainl s))) (stdout (sh s)))
    /\ (status (sh s) = Exited -> m_pc (mainl s) = M_done)).
  { revert s Hr I. intros s Hr _. revert s Hr. apply reachable_ind.
    - simpl. repeat split; intros; discriminate.
    - intros a s1 s2 (H1 & H2 & H3 & H4 & _) Hstep.
      eapply shutdown_step; eauto. }
  destruct H as (H1 & H2 & H3 & H4 & H5).
  split; [exact H1 |]. split; [exact H2 |]. split.
  { intros Hs. destruct (m_pc (mainl s)); try discriminate;
      split; auto. }
  intros Hx. pose proof (H5 Hx) as Hd.
  split; [exact Hd |]. rewrite Hd in *. simpl in *.
  split; [auto |]. split; [auto |].
  apply (inv_main_pair _ _ _ I). rewrite Hd. discriminate.
Qed.

Lemma exit_only_after_one_summary_witness :
  exists s,
    exec bench bench_config clean_interrupt (init 0) = Some s
    /\ status (sh s) = Exited
    /\ (List.length (filter is_summary (stdout (sh s)))
        = if m_summarized (m_pc (mainl s)) then 1%nat else 0%nat)
    /\ (List.length (filter is_shutting_down (stdout (sh s)))
        = if m_announced (m_pc (mainl s)) then 1%nat else 0%nat)
    /\ (m_summarized (m_pc (mainl s)) = true ->
        m_announced (m_pc (mainl s)) = true /\ stopChan (sh s) = true)
    /\ (status (sh s) = Exited ->
        m_pc (mainl s) = M_done
        /\ stopChan (sh s) = true
        /\ In (SummaryLine (finalPackets (mainl s))
                           (megabytes (finalBytes (mainl s)))
                           (avgBitrate (finalBytes (mainl s))
                                       (elapsedSec (mainl s)))
                           (elapsedSec (mainl s))) (stdout (sh s))
        /\ exists p, prefix_of p (added s)
             /\ (finalPackets (mainl s), finalBytes (mainl s))
                = snapshot_of p).
Proof.
  eexists. split; [vm_compute; reflexivity |]. split; [reflexivity |].
  apply (exit_only_after_one_summary bench bench_config 0).
  exists clean_interrupt. vm_compute. reflexivity.
Defined.

(** ** How the workers end *)

Lemma workers_return_step P c a s s' :
  (s_pc (sender s) = S_returned -> stopChan (sh s) = true) ->
  (r_pc (reporter s) = R_returned ->
   stopChan (sh s) = true
   /\ exists t, ticker (sh s) = Some t /\ stopped t = true) ->
  step P c a s = Some s' ->
  (s_pc (sender s') = S_returned -> stopChan (sh s') = true)
  /\ (r_pc (reporter s') = R_returned ->
      stopChan (sh s') = true
      /\ exists t, ticker (sh s') = Some t /\ stopped t = true).
Proof.
  intros H1 H2 Hstep.
  assert (H2a : r_pc (reporter s) = R_returned -> stopChan (sh s) = true)
    by (intros H; apply H2; exact H).
  assert (H2b : r_pc (reporter s) = R_returned ->
                exists t, ticker (sh s) = Some t /\ stopped t = true)
    by (intros H; apply H2; exact H).
  clear H2.
  step_inv Hstep; use_pcs; simpl in *; fwd;
    repeat split; intros; modus; auto; try discriminate; try congruence;
    try (eexists; split; reflexivity).
  destruct H2b as (t' & Ht & Hs). inversion Ht; subst t'.
  rewrite Hs in E0. discriminate.
Qed.

(** X6.  A worker returns only once the stop signal is fired; and when the
    reporter has returned its ticker is stopped, so that no tick is
    delivered any more and the reporter executes nothing further. *)
Theorem workers_return_only_after_stop P c t0 s :
  reachable P c t0 s ->
  (s_pc (sender s) = S_returned -> stopChan (sh s) = true)
  /\ (r_pc (reporter s) = R_returned ->
      stopChan (sh s) = true
      /\ step P c TickerFires s = None
      /\ forall b, step P c (RunReporter b) s = None).
Proof.
  intros Hr.
  assert (H : (s_pc (sender s) = S_returned -> stopChan (sh s) = true)
              /\ (r_pc (reporter s) = R_returned ->
                  stopChan (sh s) = true
                  /\ exists t, ticker (sh s) = Some t /\ stopped t = true)).
  { revert s Hr. apply reachable_ind.
    - simpl. split; discriminate.
    - intros a s1 s2 [H1 H2] Hstep. eapply workers_return_step; eauto. }
  destruct H as [H1 H2]. split; [exact H1 |].
  intros Hret. destruct (H2 Hret) as (Hc & t & Ht & Hs).
  split; [exact Hc |]. split.
  - unfold step, ticker_fires. rewrite Ht, Hs. simpl.
    destruct (status (sh s)); reflexivity.
  - intros b. unfold step, reporter_step. rewrite Hret.
    destruct (status (sh s)); reflexivity.
Qed.

Lemma workers_return_only_after_stop_witness :
  exists s,
    exec bench timed_config
         (window_elapses ++ [RunReporter false; Elapse 2000000000;
                             TickerFires; RunReporter true])
         (init 0) = Some s
    /\ s_pc (sender s) = S_returned
    /\ r_pc (reporter s) = R_returned
    /\ (s_pc (sender s) = S_returned -> stopChan (sh s) = true)
    /\ (r_pc (reporter s) = R_returned ->
        stopChan (sh s) = true
        /\ step bench timed_config TickerFires s = None
        /\ forall b, step bench timed_config (RunReporter b) s = None).
Proof.
  eexists. split; [vm_compute; reflexivity |].
  split; [reflexivity |]. split; [reflexivity |].
  apply (workers_return_only_after_stop bench timed_config 0).
  exists (window_elapses ++ [RunReporter false; Elapse 2000000000;
                             TickerFires; RunReporter true]).
  vm_compute. reflexivity.
Defined.

(** ** The run window *)

Lemma window_step P c t0 a s s' :
  startTime (sh s) = t0 ->
  (s_pc (sender s) <> S_start -> 0 < c_duration c ->
   endTime (sender s) = Some (t0 + c_duration c)) ->
  (stopChan (sh s) = true ->
   m_closed (m_pc (mainl s)) = true
   \/ (0 < c_duration c /\ t0 + c_duration c < now (sh s))) ->
  step P c a s = Some s' ->
  startTime (sh s') = t0
  /\ (s_pc (sender s') <> S_start -> 0 < c_duration c ->
      endTime (sender s') = Some (t0 + c_duration c))
  /\ (stopChan (sh s') = true ->
      m_closed (m_pc (mainl s')) = true
      \/ (0 < c_duration c /\ t0 + c_duration c < now (sh s'))).
Proof.
  intros H1 H2 H3 Hstep.
  step_inv Hstep; use_pcs; simpl in *; fwd;
    repeat match goal with
           | H : _ && _ = true |- _ => apply andb_prop in H; destruct H
           | H : (_ <? _) = true |- _ => apply Z.ltb_lt in H
           | H : (_ <? _) = false |- _ => apply Z.ltb_ge in H
           end;
    repeat split; intros; modus; auto; try discriminate; try congruence;
    try lia.
  - right. split; [assumption |]. inversion H2; subst.
    unfold Time.After in *. apply Z.ltb_lt. assumption.
  - destruct H3 as [Hm | [Hd Hl]]; [left; assumption | right; lia].
Qed.

(** X7.  The run is not cut short: a stop signal that was not fired by
    [main] (so, without an interrupt) was fired by the sender, under a
    positive run window, and strictly after the window had elapsed. *)
Theorem stop_without_interrupt_means_window_elapsed P c t0 s :
  reachable P c t0 s ->
  stopChan (sh s) = true ->
  m_closed (m_pc (mainl s)) = false ->
  0 < c_duration c /\ t0 + c_duration c < now (sh s).
Proof.
  intros Hr Hc Hm.
  assert (H : startTime (sh s) = t0
              /\ (s_pc (sender s) <> S_start -> 0 < c_duration c ->
                  endTime (sender s) = Some (t0 + c_duration c))
              /\ (stopChan (sh s) = true ->
                  m_closed (m_pc (mainl s)) = true
                  \/ (0 < c_duration c
                      /\ t0 + c_duration c < now (sh s)))).
  { revert s Hr Hc Hm. intros s Hr _ _. revert s Hr. apply reachable_ind.
    - simpl. split; [reflexivity |]. split; [| discriminate].
      intros H. contradiction H. reflexivity.
    - intros a s1 s2 (H1 & H2 & H3) Hstep. eapply window_step; eauto. }
  destruct H as (_ & _ & H). destruct (H Hc) as [Hx | Hx]; [congruence | exact Hx].
Qed.

Lemma stop_without_interrupt_means_window_elapsed_witness :
  exists s,
    exec bench timed_config window_elapses (init 0) = Some s
    /\ now (sh s) = 1000000001
    /\ 0 < c_duration timed_config
    /\ 0 + c_duration timed_config < now (sh s).
Proof.
  eexists. split; [vm_compute; reflexivity |]. split; [reflexivity |].
  apply (stop_without_interrupt_means_window_elapsed bench timed_config 0);
    [exists window_elapses; vm_compute; reflexivity
    | reflexivity | reflexivity].
Defined.


(** ** Status lines and ticks *)

Lemma status_lines_step P c a s s' :
  step P c a s = Some s' ->
  (List.length (filter is_status_line (stdout (sh s')))
   + tick_waiting (sh s') + r_in_tick (r_pc (reporter s'))
   <= List.length (filter is_status_line (stdout (sh s)))
      + tick_waiting (sh s) + r_in_tick (r_pc (reporter s))
      + (if is_ticker_fires a then 1 else 0))%nat.
Proof.
  intros Hstep. unfold tick_waiting.
  step_inv Hstep; use_pcs; simpl in *;
    rewrite ?filter_snoc; simpl; rewrite ?length_app; simpl;
    repeat match goal with
           | E : ticker _ = _ |- _ => rewrite E in *
           | E : tickC _ = _ |- _ => rewrite E in *
           | |- context [if tickC ?t then _ else _] => destruct (tickC t)
           | |- context [match ticker ?x with _ => _ end] =>
             destruct (ticker x)
           end; simpl; try lia; try discriminate.
Qed.

(** X8.  The reporter prints at most one status line per tick of its
    ticker: along any run from the start, the number of status lines on
    standard output never exceeds the number of times the ticker fired. *)
Theorem at_most_one_status_line_per_tick P c t0 acts s :
  exec P c acts (init t0) = Some s ->
  (List.length (filter is_status_line (stdout (sh s)))
   <= List.length (filter is_ticker_fires acts))%nat.
Proof.
  intros He.
  assert (H : forall acts s s',
             exec P c acts s = Some s' ->
             (List.length (filter is_status_line (stdout (sh s')))
              + tick_waiting (sh s') + r_in_tick (r_pc (reporter s'))
              <= List.length (filter is_status_line (stdout (sh s)))
                 + tick_waiting (sh s) + r_in_tick (r_pc (reporter s))
                 + List.length (filter is_ticker_fires acts))%nat).
  { clear. induction acts as [| a acts IH]; intros s s' He; simpl in He.
    - inversion He; subst. simpl. lia.
    - destruct (step P c a s) as [s1 |] eqn:E; [| discriminate].
      pose proof (status_lines_step _ _ _ _ _ E) as H1.
      pose proof (IH _ _ He) as H2.
      simpl. destruct (is_ticker_fires a); simpl; lia. }
  pose proof (H _ _ _ He) as Hb. simpl in Hb. lia.
Qed.

Lemma at_most_one_status_line_per_tick_witness :
  exists s,
    exec bench bench_config idle_tick (init 0) = Some s
    /\ List.length (filter is_status_line (stdout (sh s))) = 1%nat
    /\ (List.length (filter is_status_line (stdout (sh s)))
        <= List.length (filter is_ticker_fires idle_tick))%nat.
Proof.
  eexists. split; [vm_compute; reflexivity |]. split; [reflexivity |].
  apply (at_most_one_status_line_per_tick bench bench_config 0).
  vm_compute. reflexivity.
Defined.

(** ** What configuration establishes *)

Lemma make_payload_length P n : List.length (make_payload P n) = n.
Proof. unfold make_payload. rewrite length_map, length_seq. reflexivity. Qed.

(** X9.  When configuration starts the run, every check has passed and
    the template is as the flags say: the interface name is not empty and
    the device opened; the source MAC is the interface's; the destination
    MAC is the broadcast address when the flag is empty and the parsed
    flag otherwise; both IP addresses parsed; the payload has exactly
    [payloadSize] bytes, which is not negative; the ports are the flags
    reduced modulo 65536 (unchanged when they fit 16 bits); and rate,
    duration and report interval are passed on unchecked. *)
Theorem configure_started_template P f c :
  configure P f = Started c ->
  interfaceName f <> ""%string
  /\ OpenLive P (interfaceName f) = true
  /\ InterfaceByName P (interfaceName f) = Some (SrcMAC (eth (tmpl c)))
  /\ (destMAC f = ""%string ->
      DstMAC (eth (tmpl c)) = [255; 255; 255; 255; 255; 255])
  /\ (destMAC f <> ""%string ->
      ParseMAC P (destMAC f) = Some (DstMAC (eth (tmpl c))))
  /\ ParseIP P (srcIP f) = Some (SrcIP (ip (tmpl c)))
  /\ ParseIP P (destIP f) = Some (DstIP (ip (tmpl c)))
  /\ 0 <= payloadSize f
  /\ Z.of_nat (List.length (payload (tmpl c))) = payloadSize f
  /\ SrcPort (udp (tmpl c)) = srcPort f mod 65536
  /\ DstPort (udp (tmpl c)) = destPort f mod 65536
  /\ (0 <= srcPort f < 65536 -> SrcPort (udp (tmpl c)) = srcPort f)
  /\ (0 <= destPort f < 65536 -> DstPort (udp (tmpl c)) = destPort f)
  /\ c_pps c = pps f
  /\ c_duration c = duration f
  /\ c_reportInterval c = reportInterval f.
Proof.
  unfold configure.
  destruct (String.eqb_spec (interfaceName f) "") as [En | En].
  { destruct (FindAllDevs P) as [[| d ds] |]; discriminate. }
  destruct (OpenLive P (interfaceName f)) eqn:Eo; simpl; [| discriminate].
  destruct (InterfaceByName P (interfaceName f)) as [src |] eqn:Ei;
    [| discriminate].
  destruct (String.eqb_spec (destMAC f) "") as [Em | Em].
  - destruct (ParseIP P (srcIP f)) as [sip |] eqn:Es; [| discriminate].
    destruct (ParseIP P (destIP f)) as [dip |] eqn:Ed; [| discriminate].
    destruct (Z.ltb_spec (payloadSize f) 0) as [Hn | Hn]; [discriminate |].
    destruct (SetNetworkLayerForChecksum P _); simpl; [| discriminate].
    intros H. inversion H; subst; clear H. simpl.
    rewrite make_payload_length, Z2Nat.id by lia.
    unfold GoInt.u16. change (2 ^ 16) with 65536.
    repeat split; auto; try contradiction;
      intros; rewrite Z.mod_small; lia.
  - destruct (ParseMAC P (destMAC f)) as [dst |] eqn:Ep; [| discriminate].
    destruct (ParseIP P (srcIP f)) as [sip |] eqn:Es; [| discriminate].
    destruct (ParseIP P (destIP f)) as [dip |] eqn:Ed; [| discriminate].
    destruct (Z.ltb_spec (payloadSize f) 0) as [Hn | Hn]; [discriminate |].
    destruct (SetNetworkLayerForChecksum P _); simpl; [| discriminate].
    intros H. inversion H; subst; clear H. simpl.
    rewrite make_payload_length, Z2Nat.id by lia.
    unfold GoInt.u16. change (2 ^ 16) with 65536.
    repeat split; auto; try contradiction;
      intros; rewrite Z.mod_small; lia.
Qed.

Lemma configure_started_template_witness :
  exists c,
    configure bench (with_ports 70000 (-1) default_flags) = Started c
    /\ SrcPort (udp (tmpl c)) = 4464
    /\ DstPort (udp (tmpl c)) = 65535
    /\ List.length (payload (tmpl c)) = 1400%nat
    /\ DstMAC (eth (tmpl c)) = [255; 255; 255; 255; 255; 255].
Proof.
  destruct (configure bench (with_ports 70000 (-1) default_flags))
    as [c | m | m] eqn:E; try (vm_compute in E; discriminate).
  exists c. split; [reflexivity |].
  destruct (configure_started_template bench _ c E)
    as (_ & _ & _ & Hb & _ & _ & _ & _ & Hl & Hs & Hd & _).
  simpl in Hs, Hd, Hl. split; [exact Hs |]. split; [exact Hd |].
  split; [apply Nat2Z.inj; exact Hl |]. apply Hb. reflexivity.
Defined.

(** The configuration phase never looks at the report interval. *)
Lemma configure_ignores_reportInterval P f v :
  configure P (with_reportInterval v f)
  = match configure P f with
    | Started c =>
      Started (mkConfig (tmpl c) (c_pps c) (c_duration c) v)
    | r => r
    end.
Proof.
  unfold configure, with_reportInterval; simpl.
  repeat match goal with
         | |- context [if ?b then _ else _] => destruct b
         | |- context [match ?x with _ => _ end] => destruct x
         end; reflexivity.
Qed.

(** X10.  A report interval of zero or less is not rejected by the
    configuration phase: whenever the other flags let the run start, it
    also starts with such an interval, and the first statement of the
    reporter then panics in [time.NewTicker] before anything is printed. *)
Theorem nonpositive_interval_panics P f c v t0 b :
  configure P f = Started c ->
  -9223372036 <= v <= 0 ->
  exists c' s,
    configure P (with_reportInterval v f) = Started c'
    /\ c_reportInterval c' = v
    /\ step P c' (RunReporter b) (init t0) = Some s
    /\ status (sh s) = Crashed G_reporter "non-positive interval for NewTicker"
    /\ ticker (sh s) = None
    /\ stdout (sh s) = [].
Proof.
  intros Hc Hv. rewrite configure_ignores_reportInterval, Hc.
  eexists. eexists. split; [reflexivity |]. split; [reflexivity |].
  unfold step, reporter_step. simpl.
  unfold GoInt.mul. rewrite i64_small.
  - destruct (Z.leb_spec (v * Time.Second) 0) as [_ | H].
    + repeat split.
    + unfold Time.Second, Time.Millisecond, Time.Microsecond,
        Time.Nanosecond in H. lia.
  - unfold GoInt.is_i64, Time.Second, Time.Millisecond, Time.Microsecond,
      Time.Nanosecond. lia.
Qed.

Lemma nonpositive_interval_panics_witness :
  exists c' s,
    configure bench (with_reportInterval 0 default_flags) = Started c'
    /\ c_reportInterval c' = 0
    /\ step bench c' (RunReporter false) (init 0) = Some s
    /\ status (sh s) = Crashed G_reporter "non-positive interval for NewTicker"
    /\ ticker (sh s) = None
    /\ stdout (sh s) = [].
Proof.
  destruct (configure bench default_flags) as [c | m | m] eqn:E;
    try (vm_compute in E; discriminate).
  apply (nonpositive_interval_panics bench default_flags c 0 0 false E).
  lia.
Defined.

(** * The capture replay tool *)

Lemma i64_add_l a b : GoInt.i64 (GoInt.i64 a + b) = GoInt.i64 (a + b).
Proof.
  unfold GoInt.i64.
  replace ((a + 2 ^ 63) mod 2 ^ 64 - 2 ^ 63 + b + 2 ^ 63)
    with ((a + 2 ^ 63) mod 2 ^ 64 + b) by lia.
  rewrite Zplus_mod_idemp_l. f_equal. f_equal. lia.
Qed.

Lemma repeat_snoc {A} (x : A) n : repeat x n ++ [x] = repeat x (S n).
Proof. induction n as [| n IH]; simpl; [reflexivity | rewrite IH; reflexivity]. Qed.

Lemma i64_range z : GoInt.is_i64 (GoInt.i64 z).
Proof.
  unfold GoInt.is_i64, GoInt.i64.
  pose proof (Z.mod_pos_bound (z + 2 ^ 63) (2 ^ 64)). lia.
Qed.

(** The send loop writes one copy of the first packet for each leading
    observation below five seconds with a successful write, and stops at
    the first reading of five seconds or more, or at the first failed
    write. *)
Lemma send_loop_spec first obs :
  forall n k,
  GoInt.is_i64 n ->
  match Replay.send_loop first obs n (repeat first k) with
  | Replay.Elapsed n' w =>
    w = repeat first (k + List.length (Replay.in_time obs))
    /\ n' = GoInt.i64 (n + Z.of_nat (List.length (Replay.in_time obs)))
    /\ Forall (fun o => snd o = true) (Replay.in_time obs)
    /\ (List.length (Replay.in_time obs) < List.length obs)%nat
  | Replay.WriteFailed w =>
    exists j since,
      w = repeat first (k + j)
      /\ (j < List.length (Replay.in_time obs))%nat
      /\ nth_error obs j = Some (since, false)
      /\ Forall (fun o => snd o = true) (firstn j obs)
  | Replay.StillSending n' w =>
    w = repeat first (k + List.length obs)
    /\ n' = GoInt.i64 (n + Z.of_nat (List.length obs))
    /\ Replay.in_time obs = obs
    /\ Forall (fun o => snd o = true) obs
  end.
Proof.
  induction obs as [| [since ok] obs IH]; intros n k Hn.
  - simpl. rewrite Nat.add_0_r, Z.add_0_r, i64_small by exact Hn.
    repeat split; constructor.
  - simpl Replay.send_loop. simpl Replay.in_time.
    destruct (since <? Replay.duration) eqn:Et.
    + destruct ok.
      * rewrite repeat_snoc.
        specialize (IH (GoInt.i64 (n + 1)) (S k) (i64_range _)).
        destruct (Replay.send_loop first obs (GoInt.i64 (n + 1))
                                   (repeat first (S k)))
          as [n' w | w | n' w].
        -- destruct IH as (H1 & H2 & H3 & H4). simpl List.length.
           repeat split.
           ++ rewrite H1. f_equal. lia.
           ++ rewrite H2, i64_add_l. f_equal. lia.
           ++ constructor; [reflexivity | exact H3].
           ++ lia.
        -- destruct IH as (j & si & H1 & H2 & H3 & H4).
           exists (S j), si. simpl. repeat split.
           ++ rewrite H1. f_equal. lia.
           ++ lia.
           ++ exact H3.
           ++ constructor; [reflexivity | exact H4].
        -- destruct IH as (H1 & H2 & H3 & H4). simpl List.length.
           repeat split.
           ++ rewrite H1. f_equal. lia.
           ++ rewrite H2, i64_add_l. f_equal. lia.
           ++ rewrite H3. reflexivity.
           ++ constructor; [reflexivity | exact H4].
      * exists 0%nat, since. simpl. repeat split.
        -- rewrite Nat.add_0_r. reflexivity.
        -- lia.
        -- constructor.
    + simpl. rewrite Nat.add_0_r, Z.add_0_r, i64_small by exact Hn.
      repeat split; try lia. constructor.
Qed.

(** X11.  When the replay completes, the capture file named by the first
    argument opened and its first packet, which is not empty, is the only
    packet ever used; the device opened; one copy of that packet was
    written for each clock reading below five seconds, every write
    succeeded, and a reading of five seconds or more ended the loop; the
    packet count is the number of frames written, and the byte total is
    count times packet length (both in [int]). *)
Theorem replay_completed h obs final r w :
  Replay.main h obs final = Replay.Completed r w ->
  exists prog file more first rest,
    Replay.Args h = prog :: file :: more
    /\ Replay.OpenOffline h file = Some (first :: rest)
    /\ first <> []
    /\ Replay.OpenLive h Replay.interfaceName = true
    /\ w = repeat first (List.length (Replay.in_time obs))
    /\ Forall (fun o => snd o = true) (Replay.in_time obs)
    /\ (List.length (Replay.in_time obs) < List.length obs)%nat
    /\ Replay.packetsSent r = GoInt.i64 (Z.of_nat (List.length w))
    /\ Replay.packetLen r = Z.of_nat (List.length first)
    /\ Replay.totalBytesSent r
       = GoInt.i64 (Replay.packetsSent r * Replay.packetLen r)
    /\ Replay.elapsedTime r = Time.Seconds final.
Proof.
  unfold Replay.main.
  destruct (Replay.Args h) as [| prog [| file more]]; try discriminate.
  destruct (Replay.FindAllDevs h) as [[| d ds] |]; try discriminate.
  destruct (Replay.OpenOffline h file) as [[| first rest] |] eqn:Eo;
    try discriminate.
  destruct (Nat.eqb_spec (List.length first) 0) as [E0 | E0];
    [discriminate |].
  destruct (Replay.OpenLive h Replay.interfaceName) eqn:El; simpl;
    [| discriminate].
  pose proof (send_loop_spec first obs 0 0) as Hs. simpl repeat in Hs.
  destruct (Replay.send_loop first obs 0 []) as [n wr | wr | n wr];
    try discriminate.
  intros H. inversion H; subst; clear H. simpl.
  destruct Hs as (H1 & H2 & H3 & H4); [unfold GoInt.is_i64; lia |].
  exists prog, file, more, first, rest.
  simpl in H1. subst w.
  repeat split; auto.
  - intros ->. apply E0. reflexivity.
  - rewrite repeat_length. exact H2.
Qed.

Lemma replay_completed_witness :
  exists r w,
    Replay.main Replay.demo Replay.demo_obs 5000000123
    = Replay.Completed r w
    /\ w = [[1; 2; 3]; [1; 2; 3]]
    /\ Replay.packetsSent r = 2
    /\ Replay.totalBytesSent r = 6
    /\ exists prog file more first rest,
        Replay.Args Replay.demo = prog :: file :: more
        /\ Replay.OpenOffline Replay.demo file = Some (first :: rest)
        /\ first <> []
        /\ Replay.OpenLive Replay.demo Replay.interfaceName = true
        /\ w = repeat first (List.length (Replay.in_time Replay.demo_obs))
        /\ Forall (fun o => snd o = true) (Replay.in_time Replay.demo_obs)
        /\ (List.length (Replay.in_time Replay.demo_obs)
            < List.length Replay.demo_obs)%nat
        /\ Replay.packetsSent r = GoInt.i64 (Z.of_nat (List.length w))
        /\ Replay.packetLen r = Z.of_nat (List.length first)
        /\ Replay.totalBytesSent r
           = GoInt.i64 (Replay.packetsSent r * Replay.packetLen r)
        /\ Replay.elapsedTime r = Time.Seconds 5000000123.
Proof.
  eexists. eexists. split; [vm_compute; reflexivity |].
  split; [reflexivity |]. split; [reflexivity |]. split; [reflexivity |].
  apply (replay_completed Replay.demo Replay.demo_obs 5000000123).
  vm_compute. reflexivity.
Defined.

(** X12.  Whatever the outcome of the replay, every frame written is the
    first packet of the capture file, and there are no more frames than
    clock readings below five seconds: once a reading reaches five seconds
    nothing further is sent, and the later packets of the file are never
    sent. *)
Theorem replay_sends_only_first_packet_in_time h obs final :
  (List.length (Replay.wire_of (Replay.main h obs final))
   <= List.length (Replay.in_time obs))%nat
  /\ forall f, In f (Replay.wire_of (Replay.main h obs final)) ->
       f <> []
       /\ exists prog file more rest,
           Replay.Args h = prog :: file :: more
           /\ Replay.OpenOffline h file = Some (f :: rest).
Proof.
  unfold Replay.main.
  destruct (Replay.Args h) as [| prog [| file more]];
    try (simpl; split; [lia | tauto]).
  destruct (Replay.FindAllDevs h) as [[| d ds] |];
    try (simpl; split; [lia | tauto]).
  destruct (Replay.OpenOffline h file) as [[| first rest] |] eqn:Eo;
    try (simpl; split; [lia | tauto]).
  destruct (Nat.eqb_spec (List.length first) 0) as [E0 | E0];
    [simpl; split; [lia | tauto] |].
  destruct (Replay.OpenLive h Replay.interfaceName) eqn:El; simpl;
    [| split; [lia | tauto]].
  pose proof (send_loop_spec first obs 0 0) as Hs. simpl repeat in Hs.
  assert (Hne : first <> []) by (intros ->; apply E0; reflexivity).
  destruct (Replay.send_loop first obs 0 []) as [n wr | wr | n wr];
    simpl.
  - destruct Hs as (H1 & _); [unfold GoInt.is_i64; lia |]. subst wr.
    simpl. rewrite repeat_length. split; [lia |].
    intros f Hf. apply repeat_spec in Hf. subst f.
    split; [exact Hne |]. exists prog, file, more, rest. auto.
  - destruct Hs as (j & si & H1 & H2 & _); [unfold GoInt.is_i64; lia |].
    subst wr. simpl. rewrite repeat_length. split; [lia |].
    intros f Hf. apply repeat_spec in Hf. subst f.
    split; [exact Hne |]. exists prog, file, more, rest. auto.
  - destruct Hs as (H1 & _ & H3 & _); [unfold GoInt.is_i64; lia |].
    subst wr. simpl. rewrite repeat_length, H3. split; [lia |].
    intros f Hf. apply repeat_spec in Hf. subst f.
    split; [exact Hne |]. exists prog, file, more, rest. auto.
Qed.

(** X13.  In the replay a failed write is fatal: if the host is ready and
    the first [j] writes succeed within the five seconds but write
    [j + 1], also within them, fails, the program ends with "Failed to
    send packet" after exactly [j] frames and reports no statistics,
    whatever would have followed. *)
Theorem replay_write_failure_is_fatal h final prog file more d ds
        first rest good since later :
  Replay.Args h = prog :: file :: more ->
  Replay.FindAllDevs h = Some (d :: ds) ->
  Replay.OpenOffline h file = Some (first :: rest) ->
  first <> [] ->
  Replay.OpenLive h Replay.interfaceName = true ->
  Forall (fun o => fst o < Replay.duration /\ snd o = true) good ->
  since < Replay.duration ->
  Replay.main h (good ++ (since, false) :: later) final
  = Replay.Fatal "Failed to send packet" (repeat first (List.length good)).
Proof.
  intros Ha Hd Ho Hne Hl Hg Hs. unfold Replay.main.
  rewrite Ha, Hd, Ho, Hl.
  destruct (Nat.eqb_spec (List.length first) 0) as [E0 | E0].
  { destruct first; [contradiction | discriminate]. }
  simpl negb. cbv iota.
  assert (H : forall n k,
             Replay.send_loop first (good ++ (since, false) :: later) n
                              (repeat first k)
             = Replay.WriteFailed (repeat first (k + List.length good))).
  { clear - Hg Hs. induction Hg as [| [si ok] good [Hlt Hok] Hg IH];
      intros n k; simpl.
    - apply Z.ltb_lt in Hs. rewrite Hs, Nat.add_0_r. reflexivity.
    - simpl in Hlt, Hok. subst ok. apply Z.ltb_lt in Hlt. rewrite Hlt.
      rewrite repeat_snoc, IH. f_equal. f_equal. lia. }
  pose proof (H 0 0%nat) as H0. simpl repeat in H0. rewrite H0.
  reflexivity.
Qed.

Lemma replay_write_failure_is_fatal_witness :
  Replay.main Replay.demo ([(0, true); (10, true)] ++ (20, false) :: [])
              5000000000
  = Replay.Fatal "Failed to send packet"
                 (repeat [1; 2; 3] (List.length [(0, true); (10, true)])).
Proof.
  apply (replay_write_failure_is_fatal Replay.demo 5000000000
           "replay" "udp.pcap" [] "eth0" [] [1; 2; 3] [[4; 5; 6; 7]]
           [(0, true); (10, true)] 20 []);
    try reflexivity.
  - discriminate.
  - repeat constructor.
Defined.

(** * The receiver's processing goroutine *)

Lemma receiver_inv_init : Receiver.Inv Receiver.init.
Proof.
  constructor; simpl; try reflexivity; try discriminate; auto.
Qed.

Lemma receiver_inv_step a s s' :
  Receiver.Inv s -> Receiver.step a s = Some s' -> Receiver.Inv s'.
Proof.
  intros [Hh Hp Hn Hb] Hstep.
  destruct s as [[m pr br sc q cl tk] [p pk ps]].
  unfold Receiver.counted, Receiver.added in *. simpl in *.
  destruct a; recv_step_inv Hstep.
  all: constructor; unfold Receiver.counted, Receiver.added; simpl;
    rewrite ?removelast_last; auto; try discriminate; try congruence.
  - exists l. split; [reflexivity |]. split; [apply Hp; reflexivity |].
    intros H. contradiction H. reflexivity.
  - destruct Hp as (d & Hd & Ht & _). inversion Hd; subst d.
    exists l. auto.
  - destruct Hp as (d & Hd & Ht & Hs). subst pk. exists d.
    repeat split; auto. intros _. apply Hs. discriminate.
  - destruct Hp as (d & Hd & Ht & Hs). subst pk. exists d.
    repeat split; auto. intros _. apply Hs. discriminate.
  - destruct Hp as (d & Hd & Ht & Hs). subst pk.
    pose proof (f_equal (@List.length _) Ht) as Hl.
    rewrite length_app in Hl; simpl in Hl.
    rewrite u64_add_l. f_equal. lia.
  - destruct Hp as (d & Hd & Ht & Hs). subst pk.
    pose proof (f_equal total Ht) as Hl.
    rewrite total_app in Hl; simpl in Hl.
    rewrite u64_add_l, u64_add_r, Hs by discriminate. f_equal. lia.
  - destruct p; simpl in *; congruence.
  - destruct p; simpl in *; congruence.
Qed.

Lemma receiver_inv_reachable s : Receiver.reachable s -> Receiver.Inv s.
Proof.
  intros [acts H]. revert s H.
  induction acts as [| a acts IH] using rev_ind; intros s H.
  - simpl in H. inversion H; subst. apply receiver_inv_init.
  - assert (Happ : forall l1 l2 s0,
               Receiver.exec (l1 ++ l2) s0
               = match Receiver.exec l1 s0 with
                 | Some s1 => Receiver.exec l2 s1
                 | None => None
                 end).
    { clear. induction l1 as [| x l1 IH]; intros l2 s0; simpl;
        [reflexivity |].
      destruct (Receiver.step x s0); [apply IH | reflexivity]. }
    rewrite Happ in H.
    destruct (Receiver.exec acts Receiver.init) as [s1 |] eqn:E;
      [| discriminate].
    simpl in H. destruct (Receiver.step a s1) as [s2 |] eqn:E2;
      [| discriminate].
    inversion H; subst. eapply receiver_inv_step; [| exact E2].
    apply IH. reflexivity.
Qed.


Lemma receiver_added_prefix s :
  Receiver.Inv s ->
  Receiver.added s = Receiver.taken (Receiver.sh s)
  \/ exists data, Receiver.taken (Receiver.sh s) = Receiver.added s ++ [data].
Proof.
  intros [Hh Hp Hn Hb].
  destruct s as [[m pr br sc q cl tk] [p pk ps]].
  unfold Receiver.added in *. simpl in *.
  destruct p; destruct pk as [d |]; simpl in *; auto;
    try (destruct Hp as (d' & Hd & Ht & _); right; exists d'; exact Ht);
    try (destruct Hp as (d' & Hd & _); discriminate).
  right. exists d. apply Hp. reflexivity.
Qed.

(** X14.  In the receiver every packet taken from the capture channel is
    counted exactly once, and the nil packets of a closed channel are not
    counted: at any moment the counters account for all the packets
    received but at most the one in hand; whenever the processing
    goroutine does not hold the lock (so whenever a reader does) the two
    counters are the number and total size of one and the same list of
    packets; and at its [select] or after its return they account for
    every packet received. *)
Theorem receiver_counts_each_packet_once s :
  Receiver.reachable s ->
  prefix_of (Receiver.added s) (Receiver.taken (Receiver.sh s))
  /\ (List.length (Receiver.taken (Receiver.sh s))
      <= List.length (Receiver.added s) + 1)%nat
  /\ (Receiver.mu (Receiver.sh s) <> Some Receiver.Processor ->
      (Receiver.packetsReceived (Receiver.sh s),
       Receiver.bytesReceived (Receiver.sh s))
      = snapshot_of (Receiver.added s))
  /\ (Receiver.pc (Receiver.lo s) = Receiver.W_select
      \/ Receiver.pc (Receiver.lo s) = Receiver.W_returned ->
      (Receiver.packetsReceived (Receiver.sh s),
       Receiver.bytesReceived (Receiver.sh s))
      = snapshot_of (Receiver.taken (Receiver.sh s))).
Proof.
  intros Hr. pose proof (receiver_inv_reachable _ Hr) as I.
  pose proof (receiver_added_prefix _ I) as Ha.
  destruct I as [Hh Hp Hn Hb].
  split; [| split; [| split]].
  - destruct Ha as [-> | [d Hd]]; [apply prefix_of_refl |].
    exists [d]. exact Hd.
  - destruct Ha as [-> | [d Hd]]; [lia |].
    rewrite Hd, length_app. simpl. lia.
  - intros Hmu. unfold snapshot_of. rewrite Hn, Hb. f_equal. f_equal.
    unfold Receiver.counted.
    destruct (Receiver.pc (Receiver.lo s)); try reflexivity.
    contradiction.
  - intros Hpc. unfold snapshot_of. rewrite Hn, Hb.
    unfold Receiver.counted, Receiver.added.
    destruct Hpc as [-> | ->]; reflexivity.
Qed.

Lemma receiver_counts_each_packet_once_witness :
  exists s,
    Receiver.exec Receiver.demo_run Receiver.init = Some s
    /\ Receiver.taken (Receiver.sh s) = [[1; 2; 3]]
    /\ (Receiver.packetsReceived (Receiver.sh s),
        Receiver.bytesReceived (Receiver.sh s)) = (1, 3)
    /\ prefix_of (Receiver.added s) (Receiver.taken (Receiver.sh s))
    /\ (List.length (Receiver.taken (Receiver.sh s))
        <= List.length (Receiver.added s) + 1)%nat
    /\ (Receiver.mu (Receiver.sh s) <> Some Receiver.Processor ->
        (Receiver.packetsReceived (Receiver.sh s),
         Receiver.bytesReceived (Receiver.sh s))
        = snapshot_of (Receiver.added s))
    /\ (Receiver.pc (Receiver.lo s) = Receiver.W_select
        \/ Receiver.pc (Receiver.lo s) = Receiver.W_returned ->
        (Receiver.packetsReceived (Receiver.sh s),
         Receiver.bytesReceived (Receiver.sh s))
        = snapshot_of (Receiver.taken (Receiver.sh s))).
Proof.
  eexists. split; [vm_compute; reflexivity |].
  split; [reflexivity |]. split; [reflexivity |].
  apply receiver_counts_each_packet_once.
  exists Receiver.demo_run. vm_compute. reflexivity.
Defined.

(** X15.  Once the capture channel is closed and drained, the receiver's
    processing goroutine never blocks: as long as the stop signal is not
    fired, each iteration receives the nil packet, skips it and is back at
    the [select] with the shared state, counters included, unchanged. *)
Theorem receiver_spins_on_closed_source s b1 b2 :
  Receiver.source_closed (Receiver.sh s) = true ->
  Receiver.queued (Receiver.sh s) = [] ->
  Receiver.stopChan (Receiver.sh s) = false ->
  Receiver.pc (Receiver.lo s) = Receiver.W_select ->
  Receiver.exec [Receiver.Run b1; Receiver.Run b2] s
  = Some (Receiver.mkState
            (Receiver.sh s)
            (Receiver.mkLocals Receiver.W_select None
                               (Receiver.packetSize (Receiver.lo s)))).
Proof.
  intros Hc Hq Hs Hp.
  destruct s as [[m pr br sc q cl tk] [p pk ps]]. simpl in *. subst.
  reflexivity.
Qed.

Lemma receiver_spins_on_closed_source_witness :
  Receiver.exec [Receiver.Run true; Receiver.Run false]
    (Receiver.mkState (Receiver.mkShared None 1 3 false [] true [[1; 2; 3]])
                      (Receiver.mkLocals Receiver.W_select (Some [1; 2; 3]) 3))
  = Some (Receiver.mkState
            (Receiver.mkShared None 1 3 false [] true [[1; 2; 3]])
            (Receiver.mkLocals Receiver.W_select None 3)).
Proof.
  apply (receiver_spins_on_closed_source
           (Receiver.mkState
              (Receiver.mkShared None 1 3 false [] true [[1; 2; 3]])
              (Receiver.mkLocals Receiver.W_select (Some [1; 2; 3]) 3))
           true false); reflexivity.
Defined.

Lemma receiver_exec_app l1 l2 s :
  Receiver.exec (l1 ++ l2) s
  = match Receiver.exec l1 s with
    | Some s1 => Receiver.exec l2 s1
    | None => None
    end.
Proof.
  revert s. induction l1 as [| x l1 IH]; intros s; simpl; [reflexivity |].
  destruct (Receiver.step x s); [apply IH | reflexivity].
Qed.

Lemma receiver_counts_one_more p s :
  Receiver.pc (Receiver.lo s) = Receiver.W_select ->
  Receiver.mu (Receiver.sh s) = None ->
  forall rest, Receiver.queued (Receiver.sh s) = p :: rest ->
  exists s',
    Receiver.exec (repeat (Receiver.Run false) 7) s = Some s'
    /\ Receiver.pc (Receiver.lo s') = Receiver.W_select
    /\ Receiver.mu (Receiver.sh s') = None
    /\ Receiver.queued (Receiver.sh s') = rest
    /\ Receiver.stopChan (Receiver.sh s') = Receiver.stopChan (Receiver.sh s)
    /\ Receiver.taken (Receiver.sh s') = Receiver.taken (Receiver.sh s) ++ [p]
    /\ Receiver.packetsReceived (Receiver.sh s')
       = GoInt.u64 (Receiver.packetsReceived (Receiver.sh s) + 1)
    /\ Receiver.bytesReceived (Receiver.sh s')
       = GoInt.u64 (Receiver.bytesReceived (Receiver.sh s)
                    + Z.of_nat (List.length p)).
Proof.
  intros Hp Hm rest Hq.
  destruct s as [[m pr br sc q cl tk] [pc pk ps]]. simpl in *. subst.
  eexists. split.
  { simpl. unfold Receiver.processor_step, Receiver.receive. simpl.
    destruct sc; reflexivity. }
  simpl. rewrite u64_add_r. repeat split; reflexivity.
Qed.

(** X16.  In the receiver the stop signal does not bound what is still
    processed: with the signal fired and packets waiting, the [select] may
    take the stop case and return at once, counting nothing more, or keep
    taking the packet case, so that the goroutine, running alone, counts
    the whole backlog before it returns. *)
Theorem receiver_may_drain_backlog_after_stop frames :
  forall s,
  Receiver.pc (Receiver.lo s) = Receiver.W_select ->
  Receiver.mu (Receiver.sh s) = None ->
  Receiver.stopChan (Receiver.sh s) = true ->
  Receiver.queued (Receiver.sh s) = frames ->
  GoInt.is_u64 (Receiver.packetsReceived (Receiver.sh s)) ->
  GoInt.is_u64 (Receiver.bytesReceived (Receiver.sh s)) ->
  (frames <> [] ->
   exists s0,
     Receiver.step (Receiver.Run true) s = Some s0
     /\ Receiver.pc (Receiver.lo s0) = Receiver.W_returned
     /\ Receiver.sh s0 = Receiver.sh s)
  /\ exists s',
      Receiver.exec
        (repeat (Receiver.Run false) (7 * List.length frames)) s = Some s'
      /\ Receiver.pc (Receiver.lo s') = Receiver.W_select
      /\ Receiver.queued (Receiver.sh s') = []
      /\ Receiver.taken (Receiver.sh s')
         = Receiver.taken (Receiver.sh s) ++ frames
      /\ Receiver.packetsReceived (Receiver.sh s')
         = GoInt.u64 (Receiver.packetsReceived (Receiver.sh s)
                      + Z.of_nat (List.length frames))
      /\ Receiver.bytesReceived (Receiver.sh s')
         = GoInt.u64 (Receiver.bytesReceived (Receiver.sh s) + total frames).
Proof.
  induction frames as [| p frames IH]; intros s Hp Hm Hs Hq Hup Hub.
  - split; [intros H; contradiction H; reflexivity |].
    exists s. simpl. rewrite app_nil_r, !Z.add_0_r, !u64_small by assumption.
    repeat split; auto.
  - split.
    { intros _. destruct s as [[m pr br sc q cl tk] [pc pk ps]].
      simpl in *. subst. eexists. split; [reflexivity |].
      split; reflexivity. }
    destruct (receiver_counts_one_more p s Hp Hm frames Hq)
      as (s1 & E1 & Hp1 & Hm1 & Hq1 & Hs1 & Ht1 & Hn1 & Hb1).
    destruct (IH s1 Hp1 Hm1) as (_ & s2 & E2 & Hp2 & Hq2 & Ht2 & Hn2 & Hb2);
      try (rewrite ?Hn1, ?Hb1; apply u64_range); try congruence.
    exists s2. split.
    { replace (7 * List.length (p :: frames))%nat
        with (7 + 7 * List.length frames)%nat by (simpl; lia).
      rewrite repeat_app, receiver_exec_app, E1. exact E2. }
    split; [exact Hp2 |]. split; [exact Hq2 |]. split.
    { rewrite Ht2, Ht1, <- app_assoc. reflexivity. }
    split.
    + rewrite Hn2, Hn1, u64_add_l. f_equal. simpl List.length. lia.
    + rewrite Hb2, Hb1, u64_add_l. f_equal. simpl total. lia.
Qed.

Lemma receiver_may_drain_backlog_after_stop_witness :
  exists s',
    Receiver.exec
      (repeat (Receiver.Run false) (7 * List.length [[1; 2; 3]; [4; 5]]))
      (Receiver.mkState
         (Receiver.mkShared None 0 0 true [[1; 2; 3]; [4; 5]] false [])
         (Receiver.mkLocals Receiver.W_select None 0))
    = Some s'
    /\ Receiver.pc (Receiver.lo s') = Receiver.W_select
    /\ Receiver.queued (Receiver.sh s') = []
    /\ Receiver.taken (Receiver.sh s') = [] ++ [[1; 2; 3]; [4; 5]]
    /\ Receiver.packetsReceived (Receiver.sh s')
       = GoInt.u64 (0 + Z.of_nat (List.length [[1; 2; 3]; [4; 5]]))
    /\ Receiver.bytesReceived (Receiver.sh s')
       = GoInt.u64 (0 + total [[1; 2; 3]; [4; 5]]).
Proof.
  apply (receiver_may_drain_backlog_after_stop
           [[1; 2; 3]; [4; 5]]
           (Receiver.mkState
              (Receiver.mkShared None 0 0 true [[1; 2; 3]; [4; 5]] false [])
              (Receiver.mkLocals Receiver.W_select None 0)));
    try reflexivity; unfold GoInt.is_u64; simpl; lia.
Defined.

(** * The proxy's response relay *)

Lemma add_values_spec canon h key vs k :
  Proxy.add_values canon h key vs k
  = if String.eqb k (canon key) then h k ++ vs else h k.
Proof.
  unfold Proxy.add_values. revert h.
  induction vs as [| v vs IH]; intros h; simpl.
  - destruct (String.eqb k (canon key)); [rewrite app_nil_r |]; reflexivity.
  - rewrite IH. unfold Proxy.Add.
    destruct (String.eqb k (canon key)); [| reflexivity].
    rewrite <- app_assoc. reflexivity.
Qed.

Lemma copy_headers_other canon es :
  forall h k,
  (forall e, In e es -> canon (fst e) <> k) ->
  Proxy.copy_headers canon h es k = h k.
Proof.
  unfold Proxy.copy_headers.
  induction es as [| e es IH]; intros h k Hk; simpl; [reflexivity |].
  rewrite IH by (intros e' He'; apply Hk; right; exact He').
  rewrite add_values_spec.
  destruct (String.eqb_spec k (canon (fst e))) as [E | E]; [| reflexivity].
  exfalso. apply (Hk e); [left; reflexivity | symmetry; exact E].
Qed.

Lemma copy_headers_in canon es :
  forall h key vs,
  Proxy.distinct_keys canon es ->
  In (key, vs) es ->
  Proxy.copy_headers canon h es (canon key) = h (canon key) ++ vs.
Proof.
  unfold Proxy.distinct_keys.
  induction es as [| e es IH]; intros h key vs Hd Hin; [contradiction |].
  simpl in Hd. inversion Hd as [| x l Hnot Hd']; subst.
  change (Proxy.copy_headers canon h (e :: es))
    with (Proxy.copy_headers canon
            (Proxy.add_values canon h (fst e) (snd e)) es).
  destruct Hin as [-> | Hin].
  - rewrite copy_headers_other.
    + rewrite add_values_spec. simpl. rewrite String.eqb_refl. reflexivity.
    + intros e' He' Heq. apply Hnot. simpl. rewrite <- Heq.
      apply (in_map (fun e => canon (fst e))). exact He'.
  - rewrite (IH _ key vs Hd' Hin). rewrite add_values_spec.
    destruct (String.eqb_spec (canon key) (canon (fst e))) as [E | E];
      [| reflexivity].
    exfalso. apply Hnot. rewrite <- E.
    apply (in_map (fun e => canon (fst e)) es (key, vs)). exact Hin.
Qed.

Lemma key_present_dec (canon : string -> string)
      (es : list (string * list string)) (k : string) :
  (exists key vs, In (key, vs) es /\ canon key = k)
  \/ (forall e, In e es -> canon (fst e) <> k).
Proof.
  induction es as [| [key vs] es IH].
  - right. intros e [].
  - destruct (string_dec (canon key) k) as [E | E].
    + left. exists key, vs. split; [left; reflexivity | exact E].
    + destruct IH as [(key' & vs' & Hin & Hk) | Hno].
      * left. exists key', vs'. split; [right; exact Hin | exact Hk].
      * right. intros e [<- | He]; [exact E | apply Hno; exact He].
Qed.

(** On a transport error the header map is untouched and the only call
    on the writer is [http.Error] with status 503. *)
Lemma handleHTTP_transport_error canon RoundTrip w r err :
  RoundTrip (Proxy.mkRequest (Proxy.Method r) (Proxy.Host r) "") = inl err ->
  Proxy.handleHTTP canon RoundTrip w r
  = Proxy.mkWriter (Proxy.header w) (Proxy.calls w ++ [Proxy.Error err 503]).
Proof. intros H. unfold Proxy.handleHTTP. rewrite H. reflexivity. Qed.

(** X17.  [handleHTTP] relays the transport's response.  When the
    transport, called with the request's method and host and an empty
    [RequestURI], answers with a response whose canonical header keys are
    distinct, every header arrives under its canonical key with its values
    in their order, appended to what the writer already had; no other key
    changes; the only calls on the writer are the status code and then the
    body; and the resulting headers do not depend on the order in which
    the header map is visited. *)
Theorem handleHTTP_relays_response canon RoundTrip w r resp :
  RoundTrip (Proxy.mkRequest (Proxy.Method r) (Proxy.Host r) "") = inr resp ->
  Proxy.distinct_keys canon (Proxy.entries resp) ->
  Proxy.calls (Proxy.handleHTTP canon RoundTrip w r)
  = Proxy.calls w ++ [Proxy.WriteHeader (Proxy.StatusCode resp);
                      Proxy.Copy (Proxy.Body resp)]
  /\ (forall key vs,
        In (key, vs) (Proxy.entries resp) ->
        Proxy.header (Proxy.handleHTTP canon RoundTrip w r) (canon key)
        = Proxy.header w (canon key) ++ vs)
  /\ (forall k,
        (forall e, In e (Proxy.entries resp) -> canon (fst e) <> k) ->
        Proxy.header (Proxy.handleHTTP canon RoundTrip w r) k
        = Proxy.header w k)
  /\ (forall es k,
        Permutation (Proxy.entries resp) es ->
        Proxy.copy_headers canon (Proxy.header w) es k
        = Proxy.header (Proxy.handleHTTP canon RoundTrip w r) k).
Proof.
  intros Hrt Hd. unfold Proxy.handleHTTP. rewrite Hrt. simpl.
  split; [reflexivity |]. split; [| split].
  - intros key vs Hin. apply copy_headers_in; assumption.
  - intros k Hk. apply copy_headers_other. exact Hk.
  - intros es k Hperm.
    assert (Hd' : Proxy.distinct_keys canon es).
    { unfold Proxy.distinct_keys in *.
      eapply Permutation_NoDup; [| exact Hd].
      apply Permutation_map. exact Hperm. }
    destruct (key_present_dec canon (Proxy.entries resp) k)
      as [(key & vs & Hin & <-) | Hno].
    + rewrite (copy_headers_in canon _ _ key vs Hd Hin).
      apply copy_headers_in; [exact Hd' |].
      eapply Permutation_in; eauto.
    + rewrite (copy_headers_other canon _ _ k Hno).
      apply copy_headers_other. intros e He. apply Hno.
      eapply Permutation_in; [apply Permutation_sym; exact Hperm | exact He].
Qed.

Lemma handleHTTP_relays_response_witness :
  Proxy.header
    (Proxy.handleHTTP (fun k => k) Proxy.demo_transport Proxy.demo_writer
                      (Proxy.mkRequest "GET"%string "example.org"%string "/index"%string))
    "Set-Cookie"%string
  = ["a=1"; "b=2"]%string
  /\ (Proxy.calls
        (Proxy.handleHTTP (fun k => k) Proxy.demo_transport
                          Proxy.demo_writer
                          (Proxy.mkRequest "GET"%string "example.org"%string "/index"%string))
      = Proxy.calls Proxy.demo_writer
        ++ [Proxy.WriteHeader (Proxy.StatusCode Proxy.demo_resp);
            Proxy.Copy (Proxy.Body Proxy.demo_resp)]
      /\ (forall key vs,
            In (key, vs) (Proxy.entries Proxy.demo_resp) ->
            Proxy.header
              (Proxy.handleHTTP (fun k => k) Proxy.demo_transport
                                Proxy.demo_writer
                                (Proxy.mkRequest "GET"%string
                                                 "example.org"%string
                                                 "/index"%string))
              key
            = Proxy.header Proxy.demo_writer key ++ vs)
      /\ (forall k,
            (forall e, In e (Proxy.entries Proxy.demo_resp) -> fst e <> k) ->
            Proxy.header
              (Proxy.handleHTTP (fun k => k) Proxy.demo_transport
                                Proxy.demo_writer
                                (Proxy.mkRequest "GET"%string
                                                 "example.org"%string
                                                 "/index"%string))
              k
            = Proxy.header Proxy.demo_writer k)
      /\ (forall es k,
            Permutation (Proxy.entries Proxy.demo_resp) es ->
            Proxy.copy_headers (fun k => k)
                               (Proxy.header Proxy.demo_writer) es k
            = Proxy.header
                (Proxy.handleHTTP (fun k => k) Proxy.demo_transport
                                  Proxy.demo_writer
                                  (Proxy.mkRequest "GET" "example.org"
                                                   "/index"))
                k)).
Proof.
  split; [reflexivity |].
  apply (handleHTTP_relays_response
           (fun k => k) Proxy.demo_transport Proxy.demo_writer
           (Proxy.mkRequest "GET"%string "example.org"%string "/index"%string) Proxy.demo_resp).
  - reflexivity.
  - unfold Proxy.distinct_keys. simpl.
    constructor; [simpl; intros [H | []]; discriminate |].
    constructor; [simpl; tauto | constructor].
Defined.
